(** * Soluf-IDE: the terminal and workflow simulation engine

    A shallow embedding of the state handling of [App.tsx] (the React
    component holding the whole developer-hub simulation) together with the
    properties of its terminal session manager, command interpreter,
    suggestion engine and workflow run simulator.

    Modelling conventions.

    - JavaScript strings are Rocq [string]s.  Source literals are kept as
      written (non-ASCII glyphs as their UTF-8 bytes).
    - [String.prototype.trim] and [String.prototype.toLowerCase] belong to
      the engine that runs the component.  The handlers that call them take
      them as parameters ([handleCommand_with], [suggest_with] and the
      like), and what is proved of these holds whatever the two functions
      compute.  [Js.trim] and [Js.toLowerCase] are the two functions on the
      ASCII range, where the whole command vocabulary lives; the handlers
      without the suffix are the handlers with these two.
    - The component's hooks are gathered in the record [App].  A handler is
      a closure over the values of the render that created it: every handler
      below takes that render snapshot as its first argument [st], while the
      functional updaters it passes to [setState] receive the live state.
    - An updater is a partial function: [None] is an exception thrown while
      React applies it (the component is then unmounted).
    - [async] handlers are values of [Proc]: updater calls separated by
      suspension points.  [exec] runs one up to its next suspension, and the
      event loop [step] interleaves user events and wake-ups.
    - Of the rendering, only what decides which handler an event reaches is
      modelled: which elements are shown and enabled ([handler]). *)

From Stdlib Require Import String Ascii List Bool Arith ZArith Lia DecimalString.
Import ListNotations.
Open Scope string_scope.

(** ** String primitives *)

Module Js.

Definition isWhiteSpace (c : ascii) : bool :=
  (c =? " ")%char || (c =? "009")%char || (c =? "010")%char
  || (c =? "011")%char || (c =? "012")%char || (c =? "013")%char.

Fixpoint trimStart (s : string) : string :=
  match s with
  | String c s' => if isWhiteSpace c then trimStart s' else s
  | EmptyString => EmptyString
  end.

Fixpoint trimEnd (s : string) : string :=
  match s with
  | EmptyString => EmptyString
  | String c s' =>
      match trimEnd s' with
      | EmptyString => if isWhiteSpace c then EmptyString else String c EmptyString
      | r => String c r
      end
  end.

(** [String.prototype.trim] on the ASCII range *)
Definition trim (s : string) : string := trimEnd (trimStart s).

Definition lowerChar (c : ascii) : ascii :=
  if Ascii.leb "A" c && Ascii.leb c "Z"
  then ascii_of_nat (nat_of_ascii c + 32) else c.

(** [String.prototype.toLowerCase] on the ASCII range *)
Fixpoint toLowerCase (s : string) : string :=
  match s with
  | EmptyString => EmptyString
  | String c s' => String (lowerChar c) (toLowerCase s')
  end.

(** [s.startsWith(p)] *)
Definition startsWith (s p : string) : bool := String.prefix p s.

(** [s.split(' ')]: cut at every space, empty pieces kept. *)
Fixpoint split_space (s : string) : list string :=
  match s with
  | EmptyString => [EmptyString]
  | String c s' =>
      if (c =? " ")%char then EmptyString :: split_space s'
      else match split_space s' with
           | piece :: rest => String c piece :: rest
           | [] => [String c EmptyString]
           end
  end.

(** [arr.includes(x)] on an array of strings *)
Definition includes (arr : list string) (x : string) : bool :=
  existsb (String.eqb x) arr.

(** A string in a boolean position: only the empty string is falsy. *)
Definition truthy (s : string) : bool := negb (s =? "").

(** [x || d] where [x] may be undefined *)
Definition or_else (x : option string) (d : string) : string :=
  match x with
  | Some v => if truthy v then v else d
  | None => d
  end.

(** Interpolation of a possibly undefined string in a template literal *)
Definition show (x : option string) : string :=
  match x with Some v => v | None => "undefined" end.

(** Interpolation of numbers in a template literal *)
Definition show_int (z : Z) : string := NilZero.string_of_int (Z.to_int z).

Definition nl : string := String "010" EmptyString.
Definition tab : string := String "009" EmptyString.
Definition dq : string := String (ascii_of_nat 34) EmptyString.

End Js.

(** ** Data model ([types.ts]) *)

Inductive IDEType := VSCODE | VS2026 | SOLIDE | SOLID_IDE | SOLIDITY_IDE.

Inductive WorkflowStatus := idle | running | success | failed.

Definition WorkflowStatus_eqb (a b : WorkflowStatus) : bool :=
  match a, b with
  | idle, idle | running, running | success, success | failed, failed => true
  | _, _ => false
  end.

(** [TerminalTheme] is a union of string literals; at run time it is the
    string itself. *)
Definition TerminalTheme := string.

(** The fields [id] and [logs] of the two interfaces are prefixed to keep
    them apart. *)
Record WorkflowRun := mkWorkflowRun {
  wf_id : string;
  workflowName : string;
  status : WorkflowStatus;
  wf_logs : list string
}.

Record TerminalInstance := mkTerminalInstance {
  term_id : string;
  term_name : string;
  term_logs : list string
}.

Record Task := mkTask {
  task_id : string;
  text : string;
  completed : bool;
  createdAt : Z
}.

Inductive EntryType := file | folder.

#[warnings="-register-all"]
Inductive FileEntry := mkFileEntry {
  file_id : string;
  file_name : string;
  type : EntryType;
  language : option string;
  content : option string;
  children : option (list FileEntry)
}.

Inductive SidebarTab := explorer | actions | tasks_tab.

Record ProjectState := mkProjectState {
  activeIDE : IDEType;
  files : list FileEntry;
  currentFileId : option string;
  isTerminalOpen : bool;
  isAISidebarOpen : bool;
  activeSidebarTab : SidebarTab;
  workflows : list WorkflowRun;
  terminals : list TerminalInstance;
  activeTerminalId : string;
  terminalTheme : TerminalTheme;
  tasks : list Task
}.

(** An answer of the audit service: the value [JSON.parse] made of the
    text of the response, whatever its shape.  The component stores the
    value whole and reads of it, for its log line, only
    [result.issues.length].  [json] is the text the value was parsed from;
    [issuesLength] is what that read gives, as a template literal prints
    it, and [None] when the read throws (the value is [null], or has no
    [issues]). *)
Record AuditResult := mkAuditResult {
  json : string;
  issuesLength : option string
}.

Record ChatMessage := mkChatMessage { role : string; msg_text : string }.

(** All hooks of the component. *)
Record App := mkApp {
  state : ProjectState;
  aiResponse : option AuditResult;
  isAiLoading : bool;
  chatInput : string;
  chatMessages : list ChatMessage;
  commandInput : string;
  suggestion : string;
  newTaskText : string
}.

(** ** Seed values *)

Definition INITIAL_FILES : list FileEntry :=
  let nl := Js.nl in
  [ mkFileEntry "1" "contracts" folder None None (Some
      [ mkFileEntry "2" "Storage.sol" file (Some "solidity")
          (Some ("// SPDX-License-Identifier: MIT" ++ nl ++ "pragma solidity ^0.8.0;"
                 ++ nl ++ nl ++ "contract Storage {" ++ nl
                 ++ "    uint256 public val;" ++ nl
                 ++ "    function store(uint256 x) public {" ++ nl
                 ++ "        val = x;" ++ nl ++ "    }" ++ nl ++ "}")) None;
        mkFileEntry "3" "Token.sol" file (Some "solidity")
          (Some "contract Token { mapping(address=>uint) balances; }") None ]);
    mkFileEntry "4" ".github" folder None None (Some
      [ mkFileEntry "5" "workflows" folder None None (Some
          [ mkFileEntry "6" "main.yml" file (Some "yaml")
              (Some ("name: CI" ++ nl ++ "on: [push]" ++ nl ++ "jobs:" ++ nl
                     ++ "  build:" ++ nl ++ "    runs-on: ubuntu-latest" ++ nl
                     ++ "    steps:" ++ nl ++ "      - uses: actions/checkout@v2" ++ nl
                     ++ "      - name: Run Tests" ++ nl ++ "        run: npm test")) None;
            mkFileEntry "8" "deploy.yml" file (Some "yaml")
              (Some ("name: CD" ++ nl ++ "on: [manual]" ++ nl ++ "jobs:" ++ nl
                     ++ "  deploy:" ++ nl ++ "    runs-on: ubuntu-latest" ++ nl
                     ++ "    steps:" ++ nl ++ "      - uses: actions/checkout@v2" ++ nl
                     ++ "      - name: Deploy to Mainnet" ++ nl
                     ++ "        run: hardhat deploy")) None ]) ]);
    mkFileEntry "7" "README.md" file (Some "markdown")
      (Some ("# Soluf-th Project" ++ nl ++ "Developer hub simulation.")) None ].

Definition INITIAL_WORKFLOWS : list WorkflowRun :=
  [ mkWorkflowRun "wf1" "CI Pipeline" success
      ["Build started"; "npm install successful"; "Tests passed"; "Build finished"];
    mkWorkflowRun "wf2" "CD Deployment" idle [] ].

Definition INITIAL_TERMINALS : list TerminalInstance :=
  [ mkTerminalInstance "term-1" "bash"
      ["Welcome to Soluf-th Bash v5.1";
       "Type " ++ Js.dq ++ "help" ++ Js.dq ++ " for available commands."];
    mkTerminalInstance "term-2" "node"
      ["Welcome to Node.js v18.16.0.";
       "Type " ++ Js.dq ++ ".help" ++ Js.dq ++ " for more information."] ].

(** [Date.now()] is an input of the environment: [now1] and [now2] are
    its two readings when the module is loaded. *)
Definition INITIAL_TASKS (now1 now2 : Z) : list Task :=
  [ mkTask "t1" "Optimize Solidity Storage" false now1;
    mkTask "t2" "Update GitHub Actions config" true (now2 - 100000)%Z ].

Definition COMMANDS : list string :=
  ["help"; "clear"; "ls"; "npm test"; "npm deploy"; "audit"; "whoami";
   "theme monokai"; "theme cyberpunk"; "theme github-dark"].

Definition initialState (now1 now2 : Z) : ProjectState :=
  {| activeIDE := VSCODE;
     files := INITIAL_FILES;
     currentFileId := Some "2";
     isTerminalOpen := true;
     isAISidebarOpen := true;
     activeSidebarTab := explorer;
     workflows := INITIAL_WORKFLOWS;
     terminals := INITIAL_TERMINALS;
     activeTerminalId := "term-1";
     terminalTheme := "github-dark";
     tasks := INITIAL_TASKS now1 now2 |}.

Definition initialAppAt (now1 now2 : Z) : App :=
  {| state := initialState now1 now2;
     aiResponse := None;
     isAiLoading := false;
     chatInput := "";
     chatMessages := [];
     commandInput := "";
     suggestion := "";
     newTaskText := "" |}.

(** The hooks of the first render when both readings of the clock give
    [now]. *)
Definition initialApp (now : Z) : App := initialAppAt now now.

(** ** Object spreads

    [{ ...s, field: v }] for each field the component overwrites. *)

Definition with_terminals (ts : list TerminalInstance) (s : ProjectState) : ProjectState :=
  mkProjectState (activeIDE s) (files s) (currentFileId s) (isTerminalOpen s)
    (isAISidebarOpen s) (activeSidebarTab s) (workflows s) ts
    (activeTerminalId s) (terminalTheme s) (tasks s).

Definition with_activeTerminalId (i : string) (s : ProjectState) : ProjectState :=
  mkProjectState (activeIDE s) (files s) (currentFileId s) (isTerminalOpen s)
    (isAISidebarOpen s) (activeSidebarTab s) (workflows s) (terminals s)
    i (terminalTheme s) (tasks s).

Definition with_workflows (ws : list WorkflowRun) (s : ProjectState) : ProjectState :=
  mkProjectState (activeIDE s) (files s) (currentFileId s) (isTerminalOpen s)
    (isAISidebarOpen s) (activeSidebarTab s) ws (terminals s)
    (activeTerminalId s) (terminalTheme s) (tasks s).

Definition with_isTerminalOpen (b : bool) (s : ProjectState) : ProjectState :=
  mkProjectState (activeIDE s) (files s) (currentFileId s) b
    (isAISidebarOpen s) (activeSidebarTab s) (workflows s) (terminals s)
    (activeTerminalId s) (terminalTheme s) (tasks s).

Definition with_terminalTheme (th : TerminalTheme) (s : ProjectState) : ProjectState :=
  mkProjectState (activeIDE s) (files s) (currentFileId s) (isTerminalOpen s)
    (isAISidebarOpen s) (activeSidebarTab s) (workflows s) (terminals s)
    (activeTerminalId s) th (tasks s).

Definition with_tasks (ts : list Task) (s : ProjectState) : ProjectState :=
  mkProjectState (activeIDE s) (files s) (currentFileId s) (isTerminalOpen s)
    (isAISidebarOpen s) (activeSidebarTab s) (workflows s) (terminals s)
    (activeTerminalId s) (terminalTheme s) ts.

Definition with_currentFileId (i : option string) (s : ProjectState) : ProjectState :=
  mkProjectState (activeIDE s) (files s) i (isTerminalOpen s)
    (isAISidebarOpen s) (activeSidebarTab s) (workflows s) (terminals s)
    (activeTerminalId s) (terminalTheme s) (tasks s).

Definition with_activeSidebarTab (t : SidebarTab) (s : ProjectState) : ProjectState :=
  mkProjectState (activeIDE s) (files s) (currentFileId s) (isTerminalOpen s)
    (isAISidebarOpen s) t (workflows s) (terminals s)
    (activeTerminalId s) (terminalTheme s) (tasks s).

Definition with_isAISidebarOpen (b : bool) (s : ProjectState) : ProjectState :=
  mkProjectState (activeIDE s) (files s) (currentFileId s) (isTerminalOpen s)
    b (activeSidebarTab s) (workflows s) (terminals s)
    (activeTerminalId s) (terminalTheme s) (tasks s).

Definition with_activeIDE (i : IDEType) (s : ProjectState) : ProjectState :=
  mkProjectState i (files s) (currentFileId s) (isTerminalOpen s)
    (isAISidebarOpen s) (activeSidebarTab s) (workflows s) (terminals s)
    (activeTerminalId s) (terminalTheme s) (tasks s).

Definition with_logs (l : list string) (t : TerminalInstance) : TerminalInstance :=
  mkTerminalInstance (term_id t) (term_name t) l.

(** ** Hook setters

    The next value of each hook, and the setter calls as updaters of the
    live hooks; [None] is a throw. *)

Definition on_state (f : ProjectState -> ProjectState) (a : App) : App :=
  mkApp (f (state a)) (aiResponse a) (isAiLoading a) (chatInput a)
    (chatMessages a) (commandInput a) (suggestion a) (newTaskText a).

Definition with_aiResponse (r : option AuditResult) (a : App) : App :=
  mkApp (state a) r (isAiLoading a) (chatInput a)
    (chatMessages a) (commandInput a) (suggestion a) (newTaskText a).

Definition with_isAiLoading (b : bool) (a : App) : App :=
  mkApp (state a) (aiResponse a) b (chatInput a)
    (chatMessages a) (commandInput a) (suggestion a) (newTaskText a).

Definition with_chatInput (v : string) (a : App) : App :=
  mkApp (state a) (aiResponse a) (isAiLoading a) v
    (chatMessages a) (commandInput a) (suggestion a) (newTaskText a).

Definition on_chatMessages (f : list ChatMessage -> list ChatMessage) (a : App) : App :=
  mkApp (state a) (aiResponse a) (isAiLoading a) (chatInput a)
    (f (chatMessages a)) (commandInput a) (suggestion a) (newTaskText a).

Definition with_commandInput (v : string) (a : App) : App :=
  mkApp (state a) (aiResponse a) (isAiLoading a) (chatInput a)
    (chatMessages a) v (suggestion a) (newTaskText a).

Definition with_suggestion (v : string) (a : App) : App :=
  mkApp (state a) (aiResponse a) (isAiLoading a) (chatInput a)
    (chatMessages a) (commandInput a) v (newTaskText a).

Definition with_newTaskText (v : string) (a : App) : App :=
  mkApp (state a) (aiResponse a) (isAiLoading a) (chatInput a)
    (chatMessages a) (commandInput a) (suggestion a) v.

Definition Updater := App -> option App.

(** [setState(f)] with a functional updater that cannot throw *)
Definition setState (f : ProjectState -> ProjectState) : Updater :=
  fun a => Some (on_state f a).

(** [setState(f)] with a functional updater that may throw *)
Definition setState_partial (f : ProjectState -> option ProjectState) : Updater :=
  fun a => match f (state a) with
           | Some s => Some (on_state (fun _ => s) a)
           | None => None
           end.

Definition setAiResponse (r : option AuditResult) : Updater :=
  fun a => Some (with_aiResponse r a).

Definition setIsAiLoading (b : bool) : Updater :=
  fun a => Some (with_isAiLoading b a).

Definition setChatInput (v : string) : Updater :=
  fun a => Some (with_chatInput v a).

Definition setChatMessages (f : list ChatMessage -> list ChatMessage) : Updater :=
  fun a => Some (on_chatMessages f a).

Definition setCommandInput (v : string) : Updater :=
  fun a => Some (with_commandInput v a).

Definition setSuggestion (v : string) : Updater :=
  fun a => Some (with_suggestion v a).

Definition setNewTaskText (v : string) : Updater :=
  fun a => Some (with_newTaskText v a).

(** ** Asynchronous handlers

    The body of a handler, as the sequence of its hook-setter calls.
    [Sleep] is [await new Promise(r => setTimeout(r, ms))]; [AwaitAnalyze]
    and [AwaitChat] are the calls of the external service, whose outcome
    ([None] when the promise rejects) is given to the continuation; [Fork]
    is the call of an [async] function that is not awaited. *)

Inductive Proc :=
| Ret
| Update (u : Updater) (k : Proc)
| Sleep (ms : nat) (k : Proc)
| AwaitAnalyze (code lang : string) (k : option AuditResult -> Proc)
| AwaitChat (message context : string) (k : option string -> Proc)
| Fork (child : Proc) (k : Proc).

Notation "u ;; k" := (Update u k) (at level 61, right associativity).

Section Handlers.

(** [String.prototype.trim] and [String.prototype.toLowerCase] of the
    engine. *)
Variables trim toLowerCase : string -> string.

(** The render whose closures the handlers are. *)
Variable st : App.

Definition addLog (msg : string) (termId : option string) : Updater :=
  let targetId := Js.or_else termId (activeTerminalId (state st)) in
  setState (fun s =>
    with_terminals
      (map (fun t => if term_id t =? targetId
                     then with_logs (term_logs t ++ [msg])%list t else t)
           (terminals s)) s).

Fixpoint findEntry (id : string) (f : FileEntry) : option FileEntry :=
  match f with
  | mkFileEntry fid _ _ _ _ ch =>
      if fid =? id then Some f
      else match ch with
           | Some cs =>
               (fix findFile (l : list FileEntry) : option FileEntry :=
                  match l with
                  | [] => None
                  | c :: l' => match findEntry id c with
                               | Some found => Some found
                               | None => findFile l'
                               end
                  end) cs
           | None => None
           end
  end.

Fixpoint findFile (l : list FileEntry) (id : string) : option FileEntry :=
  match l with
  | [] => None
  | f :: l' => match findEntry id f with
               | Some found => Some found
               | None => findFile l' id
               end
  end.

Definition activeFile : option FileEntry :=
  match currentFileId (state st) with
  | Some id => if Js.truthy id then findFile (files (state st)) id else None
  | None => None
  end.

Definition handleAnalyze : Proc :=
  match activeFile with
  | None => Ret
  | Some f =>
      match content f with
      | None => Ret
      | Some code =>
          if negb (Js.truthy code) then Ret
          else
            setIsAiLoading true ;;
            addLog ("AI: Analyzing " ++ file_name f ++ "...") None ;;
            AwaitAnalyze code (Js.or_else (language f) "text") (fun outcome =>
              match outcome with
              | Some result =>
                  setAiResponse (Some result) ;;
                  match issuesLength result with
                  | Some n =>
                      addLog ("AI: Analysis complete for " ++ file_name f ++ ". Found "
                              ++ n ++ " concerns.") None ;;
                      setIsAiLoading false ;; Ret
                  | None =>
                      addLog "AI Error: Failed to analyze code." None ;;
                      setIsAiLoading false ;; Ret
                  end
              | None =>
                  addLog "AI Error: Failed to analyze code." None ;;
                  setIsAiLoading false ;; Ret
              end)
      end
  end.

Definition handleChat_with : Proc :=
  if negb (Js.truthy (trim (chatInput st))) then Ret
  else
    let userMsg := chatInput st in
    setChatMessages (fun prev => (prev ++ [mkChatMessage "user" userMsg])%list) ;;
    setChatInput "" ;;
    setIsAiLoading true ;;
    AwaitChat userMsg
      (Js.or_else (match activeFile with Some f => content f | None => None end) "")
      (fun outcome =>
         match outcome with
         | Some response =>
             setChatMessages (fun prev => (prev ++ [mkChatMessage "assistant" response])%list) ;;
             setIsAiLoading false ;; Ret
         | None =>
             addLog "AI Error: Failed to generate response." None ;;
             setIsAiLoading false ;; Ret
         end).

(** The four templated lines of a run. *)
Definition steps (name : string) : list string :=
  [ "[" ++ name ++ "] Starting runner...";
    "[" ++ name ++ "] Checking out code...";
    "[" ++ name ++ "] Deployment success!";
    "[" ++ name ++ "] Job finished." ].

(** [for (const step of steps) { addLog(step); await ...800 }], then [k] *)
Fixpoint forEachStep (l : list string) (k : Proc) : Proc :=
  match l with
  | [] => k
  | step :: l' => addLog step None ;; Sleep 800 (forEachStep l' k)
  end.

Definition markRunning (workflowId : string) (s : ProjectState) : ProjectState :=
  with_workflows
    (map (fun w => if wf_id w =? workflowId
                   then mkWorkflowRun (wf_id w) (workflowName w) running []
                   else w) (workflows s))
    (with_isTerminalOpen true s).

Definition markSuccess (workflowId : string) (s : ProjectState) : ProjectState :=
  with_workflows
    (map (fun w => if wf_id w =? workflowId
                   then mkWorkflowRun (wf_id w) (workflowName w) success (wf_logs w)
                   else w) (workflows s)) s.

Definition runWorkflow (workflowId : string) : Proc :=
  match find (fun w => wf_id w =? workflowId) (workflows (state st)) with
  | None => Ret
  | Some wf =>
      if WorkflowStatus_eqb (status wf) running then Ret
      else
        setState (markRunning workflowId) ;;
        forEachStep (steps (workflowName wf))
          (setState (markSuccess workflowId) ;; Ret)
  end.

Definition clearActive (s : ProjectState) : ProjectState :=
  with_terminals
    (map (fun t => if term_id t =? activeTerminalId s then with_logs [] t else t)
         (terminals s)) s.

Definition THEMES : list string := ["monokai"; "cyberpunk"; "github-dark"].

Definition handleCommand_with (cmd : string) : Proc :=
  let cleanCmd := toLowerCase (trim cmd) in
  let finish := setCommandInput "" ;; setSuggestion "" ;; Ret in
  addLog ("soluf-th@dev:~$ " ++ cmd) None ;;
  if cleanCmd =? "clear" then
    setState clearActive ;; finish
  else if cleanCmd =? "ls" then
    addLog "contracts/  .github/  README.md  package.json" None ;; finish
  else if cleanCmd =? "help" then
    addLog "Available commands: help, clear, ls, npm test, npm deploy, audit, whoami, theme [monokai|cyberpunk|github-dark]" None ;;
    finish
  else if cleanCmd =? "whoami" then
    addLog "soluf-th-developer-agent-01" None ;; finish
  else if cleanCmd =? "audit" then
    Fork handleAnalyze finish
  else if cleanCmd =? "npm test" then
    addLog "Running tests..." None ;;
    Sleep 1000
      (addLog "✓ Storage.sol compiled" None ;;
       addLog "✓ Storage.sol tests passed" None ;;
       addLog "Tests completed successfully." None ;;
       finish)
  else if Js.startsWith cleanCmd "theme " then
    let themeName := nth_error (Js.split_space cleanCmd) 1 in
    if match themeName with Some n => Js.includes THEMES n | None => false end then
      setState (with_terminalTheme (Js.show themeName)) ;;
      addLog ("Terminal theme switched to " ++ Js.show themeName) None ;;
      finish
    else
      addLog ("Unknown theme: " ++ Js.show themeName) None ;; finish
  else if cleanCmd =? "npm deploy" then
    Fork (runWorkflow "wf2") finish
  else if negb (cleanCmd =? "") then
    addLog ("Command not found: " ++ cleanCmd) None ;; finish
  else finish.

Inductive Key := Enter | Tab | OtherKey.

Definition handleCommandKeyDown_with (key : Key) : Proc :=
  match key with
  | Enter => handleCommand_with (commandInput st)
  | Tab => if Js.truthy (suggestion st)
           then setCommandInput (suggestion st) ;; setSuggestion "" ;; Ret
           else Ret
  | OtherKey => Ret
  end.

(** The value [onCommandChange] stores as the suggestion. *)
Definition suggest_with (val : string) : string :=
  if Js.truthy (trim val)
  then Js.or_else (find (fun c => Js.startsWith c (toLowerCase val)) COMMANDS) ""
  else "".

Definition onCommandChange_with (val : string) : Proc :=
  setCommandInput val ;; setSuggestion (suggest_with val) ;; Ret.

(** [now1] and [now2] are the two readings of [Date.now()]. *)
Definition addTask_with (now1 now2 : Z) : Proc :=
  if negb (Js.truthy (trim (newTaskText st))) then Ret
  else
    let newTask := mkTask ("task-" ++ Js.show_int now1) (trim (newTaskText st)) false now2 in
    setState (fun s => with_tasks (newTask :: tasks s) s) ;;
    setNewTaskText "" ;; Ret.

Definition toggleTask (id : string) : Proc :=
  setState (fun s => with_tasks
    (map (fun t => if task_id t =? id
                   then mkTask (task_id t) (text t) (negb (completed t)) (createdAt t)
                   else t) (tasks s)) s) ;; Ret.

Definition deleteTask (id : string) : Proc :=
  setState (fun s => with_tasks (filter (fun t => negb (task_id t =? id)) (tasks s)) s) ;; Ret.

Definition createNewTerminal (now : Z) : Proc :=
  let newId := "term-" ++ Js.show_int now in
  let newTerm := mkTerminalInstance newId "bash" ["Terminal created."] in
  setState (fun s => with_activeTerminalId newId (with_terminals (terminals s ++ [newTerm])%list s)) ;;
  Ret.

(** [newTerms[0].id] throws when [newTerms] is empty. *)
Definition closeTerminal (id : string) : Proc :=
  if (length (terminals (state st)) <=? 1)%nat then Ret
  else
    let newTerms := filter (fun t => negb (term_id t =? id)) (terminals (state st)) in
    setState_partial (fun s =>
      if activeTerminalId s =? id then
        match newTerms with
        | first :: _ => Some (with_activeTerminalId (term_id first) (with_terminals newTerms s))
        | [] => None
        end
      else Some (with_terminals newTerms s)) ;;
    Ret.

End Handlers.

(** The handlers with [Js.trim] and [Js.toLowerCase] for the two functions
    of the engine. *)
Definition handleChat (st : App) : Proc := handleChat_with Js.trim st.

Definition handleCommand (st : App) (cmd : string) : Proc :=
  handleCommand_with Js.trim Js.toLowerCase st cmd.

Definition handleCommandKeyDown (st : App) (key : Key) : Proc :=
  handleCommandKeyDown_with Js.trim Js.toLowerCase st key.

Definition suggest (val : string) : string :=
  suggest_with Js.trim Js.toLowerCase val.

Definition onCommandChange (val : string) : Proc :=
  onCommandChange_with Js.trim Js.toLowerCase val.

Definition addTask (st : App) (now1 now2 : Z) : Proc :=
  addTask_with Js.trim st now1 now2.

(** ** The event loop *)

(** A suspended handler, waiting for its timer or for the service. *)
Inductive Parked :=
| OnTimer (ms : nat) (k : Proc)
| OnAnalyze (code lang : string) (k : option AuditResult -> Proc)
| OnChat (message context : string) (k : option string -> Proc).

(** Runs a handler on the live hooks up to its next suspension: the hooks
    it leaves and what it parked, or [None] when an updater throws. *)
Fixpoint exec (p : Proc) (a : App) : option (App * list Parked) :=
  match p with
  | Ret => Some (a, [])
  | Update u k =>
      match u a with
      | Some a' => exec k a'
      | None => None
      end
  | Sleep ms k => Some (a, [OnTimer ms k])
  | AwaitAnalyze code lang k => Some (a, [OnAnalyze code lang k])
  | AwaitChat message context k => Some (a, [OnChat message context k])
  | Fork child k =>
      match exec child a with
      | Some (a', ps) =>
          match exec k a' with
          | Some (a'', ps') => Some (a'', (ps ++ ps')%list)
          | None => None
          end
      | None => None
      end
  end.

Inductive Wakeup :=
| Timeout
| AnalyzeSettled (outcome : option AuditResult)
| ChatSettled (outcome : option string).

Definition resume (p : Parked) (w : Wakeup) : option Proc :=
  match p, w with
  | OnTimer _ k, Timeout => Some k
  | OnAnalyze _ _ k, AnalyzeSettled r => Some (k r)
  | OnChat _ _ k, ChatSettled r => Some (k r)
  | _, _ => None
  end.

(** What the user and the environment can do.  Identifiers carried by a
    click are those of the element clicked. *)
Inductive Event :=
| KeyDown (key : Key)
| CommandChange (val : string)
| ClickRunWorkflow (workflowId : string)
| SubmitTask (now1 now2 : Z)
| TaskTextChange (val : string)
| ClickToggleTask (id : string)
| ClickDeleteTask (id : string)
| ClickNewTerminal (now : Z)
| ClickCloseTerminal (id : string)
| ClickTerminalTab (id : string)
| ClickFile (id : string)
| ClickSidebarTab (tab : SidebarTab)
| ClickToggleAISidebar
| ClickCloseAISidebar
| SelectIDE (v : IDEType)
| SelectTheme (v : string)
| ClickHideTerminal
| ClickAnalyze
| SubmitChat
| ChatInputChange (val : string)
| Wake (i : nat) (w : Wakeup).

Definition SidebarTab_eqb (a b : SidebarTab) : bool :=
  match a, b with
  | explorer, explorer | actions, actions | tasks_tab, tasks_tab => true
  | _, _ => false
  end.

Definition guard (b : bool) (p : Proc) : option Proc :=
  if b then Some p else None.

(** The handler the render [st] attaches to a user event; [None] when the
    render does not show the element, or shows it disabled. *)
Definition handler (st : App) (e : Event) : option Proc :=
  let s := state st in
  match e with
  | KeyDown key => guard (isTerminalOpen s) (handleCommandKeyDown st key)
  | CommandChange val => guard (isTerminalOpen s) (onCommandChange val)
  | ClickRunWorkflow workflowId =>
      guard (SidebarTab_eqb (activeSidebarTab s) actions
             && existsb (fun w => (wf_id w =? workflowId)
                                  && negb (WorkflowStatus_eqb (status w) running))
                        (workflows s))
            (runWorkflow st workflowId)
  | SubmitTask now1 now2 =>
      guard (SidebarTab_eqb (activeSidebarTab s) tasks_tab) (addTask st now1 now2)
  | TaskTextChange val =>
      guard (SidebarTab_eqb (activeSidebarTab s) tasks_tab) (setNewTaskText val ;; Ret)
  | ClickToggleTask id =>
      guard (SidebarTab_eqb (activeSidebarTab s) tasks_tab
             && existsb (fun t => task_id t =? id) (tasks s))
            (toggleTask id)
  | ClickDeleteTask id =>
      guard (SidebarTab_eqb (activeSidebarTab s) tasks_tab
             && existsb (fun t => task_id t =? id) (tasks s))
            (deleteTask id)
  | ClickNewTerminal now => guard (isTerminalOpen s) (createNewTerminal now)
  | ClickCloseTerminal id =>
      guard (isTerminalOpen s && existsb (fun t => term_id t =? id) (terminals s))
            (closeTerminal st id)
  | ClickTerminalTab id =>
      guard (isTerminalOpen s && existsb (fun t => term_id t =? id) (terminals s))
            (setState (with_activeTerminalId id) ;; Ret)
  | ClickFile id =>
      match findFile (files s) id with
      | Some f =>
          guard (SidebarTab_eqb (activeSidebarTab s) explorer)
                (match type f with
                 | file => setState (with_currentFileId (Some (file_id f))) ;; Ret
                 | folder => Ret
                 end)
      | None => None
      end
  | ClickSidebarTab tab => Some (setState (with_activeSidebarTab tab) ;; Ret)
  | ClickToggleAISidebar =>
      Some (setState (fun s => with_isAISidebarOpen (negb (isAISidebarOpen s)) s) ;; Ret)
  | ClickCloseAISidebar =>
      guard (isAISidebarOpen s) (setState (with_isAISidebarOpen false) ;; Ret)
  | SelectIDE v => Some (setState (with_activeIDE v) ;; Ret)
  | SelectTheme v =>
      guard (isTerminalOpen s && Js.includes THEMES v) (setState (with_terminalTheme v) ;; Ret)
  | ClickHideTerminal =>
      guard (isTerminalOpen s) (setState (with_isTerminalOpen false) ;; Ret)
  | ClickAnalyze =>
      guard (match activeFile st with Some _ => true | None => false end
             && negb (isAiLoading st))
            (handleAnalyze st)
  | SubmitChat => guard (isAISidebarOpen s && negb (isAiLoading st)) (handleChat st)
  | ChatInputChange val => guard (isAISidebarOpen s) (setChatInput val ;; Ret)
  | Wake _ _ => None
  end.

(** The live hooks and the suspended handlers. *)
Record Sys := mkSys { live : App; parked : list Parked }.

Fixpoint remove_nth {A : Type} (i : nat) (l : list A) : list A :=
  match l, i with
  | [], _ => []
  | _ :: l', O => l'
  | x :: l', S i' => x :: remove_nth i' l'
  end.

(** One turn of the event loop.  A user event runs the handler of the
    current render, whose snapshot is the live hooks; a wake-up resumes a
    parked handler, whose closures still are those of its own render.
    Timers are not ordered by their delays.

    The tabs are keyed by the session ids.  While these are pairwise
    distinct, the elements of the document are those of the current render,
    as here.  Once two sessions share an id, React may leave a tab of an
    earlier render in the document, with the closures of that render: such
    a click is no event of [step]; it is [closeTerminal st id] run on live
    hooks that are not [st]. *)
Definition step (c : Sys) (e : Event) : option Sys :=
  match e with
  | Wake i w =>
      match nth_error (parked c) i with
      | Some p =>
          match resume p w with
          | Some k =>
              match exec k (live c) with
              | Some (a, ps) => Some (mkSys a (remove_nth i (parked c) ++ ps))
              | None => None
              end
          | None => None
          end
      | None => None
      end
  | _ =>
      match handler (live c) e with
      | Some p =>
          match exec p (live c) with
          | Some (a, ps) => Some (mkSys a (parked c ++ ps))
          | None => None
          end
      | None => None
      end
  end.

Fixpoint run (c : Sys) (es : list Event) : option Sys :=
  match es with
  | [] => Some c
  | e :: es' =>
      match step c e with
      | Some c' => run c' es'
      | None => None
      end
  end.

Definition bootAt (now1 now2 : Z) : Sys := mkSys (initialAppAt now1 now2) [].

Definition boot (now : Z) : Sys := mkSys (initialApp now) [].

(** ** Observations *)

Definition terminalById (id : string) (s : ProjectState) : option TerminalInstance :=
  find (fun t => term_id t =? id) (terminals s).

Definition logsOf (id : string) (a : App) : list string :=
  match terminalById id (state a) with
  | Some t => term_logs t
  | None => []
  end.

Definition workflowById (id : string) (s : ProjectState) : option WorkflowRun :=
  find (fun w => wf_id w =? id) (workflows s).

Definition statusOf (id : string) (a : App) : option WorkflowStatus :=
  option_map status (workflowById id (state a)).

(** The sessions the tab bar renders as active. *)
Definition activeSessions (s : ProjectState) : list TerminalInstance :=
  filter (fun t => activeTerminalId s =? term_id t) (terminals s).

(** ** Vocabulary of the statements *)

(** [lines] added at the end of the log of every session whose id is
    [target]. *)
Definition appendLogs (target : string) (lines : list string)
    (ts : list TerminalInstance) : list TerminalInstance :=
  map (fun t => if term_id t =? target
                then with_logs (term_logs t ++ lines)%list t else t) ts.

Definition logged (target : string) (lines : list string) (a : App) : App :=
  on_state (fun s => with_terminals (appendLogs target lines (terminals s)) s) a.

(** The reset that ends every dispatch. *)
Definition promptReset (a : App) : App :=
  with_suggestion "" (with_commandInput "" a).

(** The text of [s] before its first space. *)
Fixpoint upToSpace (s : string) : string :=
  match s with
  | EmptyString => EmptyString
  | String c s' => if (c =? " ")%char then EmptyString else String c (upToSpace s')
  end.

Definition termIds (s : ProjectState) : list string := map term_id (terminals s).

(** The sessions of the data model: ids pairwise distinct, the active id
    one of them. *)
Definition sessionsOk (s : ProjectState) : Prop :=
  NoDup (termIds s) /\ In (activeTerminalId s) (termIds s).

(** Sequences of operations of the terminal session manager, each one
    called from the current render: the closures of the tabs shown, as long
    as the session ids are pairwise distinct. *)
Inductive TermOp := Create (now : Z) | Close (id : string).

Definition termOp (st : App) (o : TermOp) : Proc :=
  match o with
  | Create now => createNewTerminal now
  | Close id => closeTerminal st id
  end.

Fixpoint runOps (a : App) (ops : list TermOp) : option App :=
  match ops with
  | [] => Some a
  | o :: ops' =>
      match exec (termOp a o) a with
      | Some (a', _) => runOps a' ops'
      | None => None
      end
  end.

(** Every creation of the sequence reads a clock value whose id names no
    session shown at that moment. *)
Fixpoint freshRun (a : App) (ops : list TermOp) : Prop :=
  match ops with
  | [] => True
  | o :: ops' =>
      match o with
      | Create now => ~ In ("term-" ++ Js.show_int now) (termIds (state a))
      | Close _ => True
      end
      /\ match exec (termOp a o) a with
         | Some (a', _) => freshRun a' ops'
         | None => True
         end
  end.

(** Every click on the new-terminal button among the events reads a clock
    value whose id names no session shown at that moment. *)
Fixpoint freshClicks (c : Sys) (es : list Event) : Prop :=
  match es with
  | [] => True
  | e :: es' =>
      match e with
      | ClickNewTerminal now =>
          ~ In ("term-" ++ Js.show_int now) (termIds (state (live c)))
      | _ => True
      end
      /\ match step c e with
         | Some c' => freshClicks c' es'
         | None => True
         end
  end.

(** The seeded component once the deployment workflow has been started. *)
Definition wf2_running : App := on_state (markRunning "wf2") (initialApp 0).

Definition noFailed (a : App) : Prop :=
  Forall (fun w => status w <> failed) (workflows (state a)).

(** An updater that leaves the workflows alone. *)
Definition sameWorkflows (u : Updater) : Prop :=
  forall a a', u a = Some a' -> workflows (state a') = workflows (state a).

(** Every updater of a handler, whenever it runs, keeps [I]. *)
Inductive Keeps (I : App -> Prop) : Proc -> Prop :=
| Keeps_Ret : Keeps I Ret
| Keeps_Update u k :
    (forall a a', I a -> u a = Some a' -> I a') -> Keeps I k -> Keeps I (Update u k)
| Keeps_Sleep ms k : Keeps I k -> Keeps I (Sleep ms k)
| Keeps_AwaitAnalyze code lang k :
    (forall r, Keeps I (k r)) -> Keeps I (AwaitAnalyze code lang k)
| Keeps_AwaitChat message context k :
    (forall r, Keeps I (k r)) -> Keeps I (AwaitChat message context k)
| Keeps_Fork child k : Keeps I child -> Keeps I k -> Keeps I (Fork child k).

Definition KeepsParked (I : App -> Prop) (p : Parked) : Prop :=
  match p with
  | OnTimer _ k => Keeps I k
  | OnAnalyze _ _ k => forall r, Keeps I (k r)
  | OnChat _ _ k => forall r, Keeps I (k r)
  end.

(** No workflow has failed, and no suspended handler can make one fail. *)
Definition neverFails (c : Sys) : Prop :=
  noFailed (live c) /\ Forall (KeepsParked noFailed) (parked c).

(** ** Vocabulary of the further properties *)

(** The entries of a tree in depth-first order, a folder before its
    children. *)
Fixpoint entriesOf (f : FileEntry) : list FileEntry :=
  match f with
  | mkFileEntry _ _ _ _ _ ch =>
      f :: match ch with
           | Some cs =>
               (fix below (l : list FileEntry) : list FileEntry :=
                  match l with
                  | [] => []
                  | c :: l' => (entriesOf c ++ below l')%list
                  end) cs
           | None => []
           end
  end.

Definition allEntries (l : list FileEntry) : list FileEntry :=
  flat_map entriesOf l.

(** What no command typed at the prompt is meant to reach: the task list,
    the file tree and its selection, the chat, the layout, and which
    sessions exist and which one is active. *)
Record Untouched := mkUntouched {
  u_tasks : list Task;
  u_files : list FileEntry;
  u_currentFileId : option string;
  u_chatMessages : list ChatMessage;
  u_chatInput : string;
  u_newTaskText : string;
  u_activeIDE : IDEType;
  u_activeSidebarTab : SidebarTab;
  u_isAISidebarOpen : bool;
  u_termIds : list string;
  u_activeTerminalId : string
}.

Definition untouched (a : App) : Untouched :=
  mkUntouched (tasks (state a)) (files (state a)) (currentFileId (state a))
    (chatMessages a) (chatInput a) (newTaskText a) (activeIDE (state a))
    (activeSidebarTab (state a)) (isAISidebarOpen (state a))
    (termIds (state a)) (activeTerminalId (state a)).

(** The seeded component with a task text typed, white space around it. *)
Definition typing_a_task : App := with_newTaskText "  Write spec  " (initialApp 0).

(** The seeded component with a question typed in the chat field. *)
Definition asking : App := with_chatInput " why? " (initialApp 0).

(** The sessions of a configuration are those of the data model. *)
Definition sessionsShown (a : App) : Prop := sessionsOk (state a).

(** The two lines by which the interpreter turns a line down. *)
Definition complaint (l : string) : bool :=
  Js.startsWith l "Command not found: " || Js.startsWith l "Unknown theme: ".

(** Every complaint in a log of [b] is one that [P] accounts for. *)
Definition complaintsWithin (P : string -> string -> Prop) (b : App) : Prop :=
  forall t l, In t (terminals (state b)) -> In l (term_logs t) ->
              complaint l = true -> P (term_id t) l.

(** The terminal panel is shown, or hidden, as [U] says. *)
Definition panelIs (U : bool) (b : App) : Prop := isTerminalOpen (state b) = U.

(** No suspended handler shows or hides the terminal panel. *)
Definition panelQuiet (ps : list Parked) : Prop :=
  Forall (fun p => forall U, KeepsParked (panelIs U) p) ps.

(** * Properties *)

(** ** Strings *)

Lemma trimEnd_app (s1 s2 : string) :
  Js.trimEnd (s1 ++ s2) =
  if Js.trimEnd s2 =? "" then Js.trimEnd s1 else s1 ++ Js.trimEnd s2.
Proof.
  induction s1 as [|c s1 IH]; simpl.
  - destruct (Js.trimEnd s2); reflexivity.
  - rewrite IH. destruct (Js.trimEnd s2 =? "") eqn:E; [reflexivity|].
    destruct (s1 ++ Js.trimEnd s2) eqn:E'; [|reflexivity].
    destruct s1; simpl in E'; [|discriminate].
    rewrite E' in E. discriminate.
Qed.

Lemma toLowerCase_app (s1 s2 : string) :
  Js.toLowerCase (s1 ++ s2) = Js.toLowerCase s1 ++ Js.toLowerCase s2.
Proof. induction s1; simpl; congruence. Qed.

Lemma trimEnd_space (s : string) :
  Js.trimEnd (String " " s) = "" \/
  Js.trimEnd (String " " s) = String " " (Js.trimEnd s).
Proof. simpl. destruct (Js.trimEnd s); auto. Qed.

Lemma split_space_head (s : string) :
  exists rest, Js.split_space s = upToSpace s :: rest.
Proof.
  induction s as [|c s [rest IH]]; simpl.
  - eauto.
  - destruct (c =? " ")%char; [eauto|]. rewrite IH. eauto.
Qed.

Lemma upToSpace_app_space (v s : string) :
  upToSpace v = v -> upToSpace (v ++ String " " s) = v.
Proof.
  induction v as [|c v IH]; simpl; [reflexivity|].
  destruct (c =? " ")%char; [discriminate|].
  intros H. injection H as H. rewrite IH; auto.
Qed.

(** ** Log appends *)

Lemma addLog_active (st : App) (msg : string) (a : App) :
  addLog st msg None a = Some (logged (activeTerminalId (state st)) [msg] a).
Proof. reflexivity. Qed.

Lemma appendLogs_app (target : string) (l1 l2 : list string) (ts : list TerminalInstance) :
  appendLogs target l2 (appendLogs target l1 ts) = appendLogs target (l1 ++ l2) ts.
Proof.
  unfold appendLogs. rewrite map_map. apply map_ext. intros t.
  destruct (term_id t =? target) eqn:E; simpl; rewrite E; [|reflexivity].
  unfold with_logs; simpl. now rewrite <- app_assoc.
Qed.

Lemma logged_logged (target : string) (l1 l2 : list string) (a : App) :
  logged target l2 (logged target l1 a) = logged target (l1 ++ l2) a.
Proof.
  unfold logged, on_state, with_terminals; simpl. now rewrite appendLogs_app.
Qed.

Lemma find_map_hit (target : string) (f : TerminalInstance -> TerminalInstance)
    (ts : list TerminalInstance) :
  (forall t, term_id (f t) = term_id t) ->
  find (fun t => term_id t =? target)
       (map (fun t => if term_id t =? target then f t else t) ts)
  = option_map f (find (fun t => term_id t =? target) ts).
Proof.
  intros Hid. induction ts as [|t ts IH]; simpl; [reflexivity|].
  destruct (term_id t =? target) eqn:E.
  - now rewrite Hid, E.
  - now rewrite E.
Qed.




(** ** The command interpreter *)

Ltac run_exec :=
  repeat (cbn -[addLog append logged]; rewrite ?addLog_active);
  rewrite ?logged_logged; reflexivity.

Lemma handleCommand_theme (trim toLowerCase : string -> string)
    (st : App) (cmd rest : string) (a : App) :
  toLowerCase (trim cmd) = "theme " ++ rest ->
  exec (handleCommand_with trim toLowerCase st cmd) a =
  Some (let target := activeTerminalId (state st) in
        let echo := "soluf-th@dev:~$ " ++ cmd in
        let name := upToSpace rest in
        if Js.includes THEMES name
        then promptReset (on_state (with_terminalTheme name)
               (logged target [echo; "Terminal theme switched to " ++ name] a))
        else promptReset (logged target [echo; "Unknown theme: " ++ name] a),
        []).
Proof.
  intros H. simpl in H. unfold handleCommand_with. rewrite H.
  destruct (split_space_head rest) as [tl Htl].
  assert (Hp : prefix "" rest = true) by (destruct rest; reflexivity).
  cbn -[addLog Js.includes THEMES append upToSpace]. rewrite Htl, Hp.
  cbn -[addLog Js.includes THEMES append upToSpace].
  rewrite addLog_active.
  destruct (Js.includes THEMES (upToSpace rest)) eqn:E;
    cbn -[addLog Js.includes THEMES append upToSpace logged];
    rewrite addLog_active.
  - match goal with
    | |- context [logged ?t [?e; ?c] ?b] =>
        change (logged t [e; c] b) with (logged t (app [e] [c]) b)
    end.
    rewrite <- logged_logged. reflexivity.
  - rewrite logged_logged. reflexivity.
Qed.

Lemma append_assoc (s1 s2 s3 : string) : (s1 ++ s2) ++ s3 = s1 ++ (s2 ++ s3).
Proof. induction s1; simpl; congruence. Qed.

Lemma includes_In (arr : list string) (x : string) :
  Js.includes arr x = true <-> In x arr.
Proof.
  unfold Js.includes. rewrite existsb_exists. split.
  - intros [y [Hy E]]. apply String.eqb_eq in E. now subst.
  - intros H. exists x. split; [assumption | apply String.eqb_refl].
Qed.

Lemma includes_not_In (arr : list string) (x : string) :
  Js.includes arr x = false <-> ~ In x arr.
Proof.
  rewrite <- includes_In. destruct (Js.includes arr x); split; congruence.
Qed.

(** The three theme names survive trimming and case folding, and hold no
    space. *)
Lemma THEMES_plain (v : string) :
  In v THEMES ->
  Js.trimEnd ("theme " ++ v) = "theme " ++ v /\ Js.toLowerCase v = v /\ upToSpace v = v.
Proof.
  intros [<-|[<-|[<-|[]]]]; repeat split; reflexivity.
Qed.

Lemma clean_theme_line (v extra : string) :
  In v THEMES ->
  exists rest, Js.toLowerCase (Js.trim ("theme " ++ v ++ " " ++ extra)) = "theme " ++ rest
               /\ upToSpace rest = v.
Proof.
  intros Hv. destruct (THEMES_plain v Hv) as [Ht [Hl Hu]].
  unfold Js.trim.
  change (Js.trimStart ("theme " ++ v ++ " " ++ extra)) with ("theme " ++ v ++ " " ++ extra).
  rewrite <- (append_assoc "theme " v (" " ++ extra)).
  rewrite (trimEnd_app ("theme " ++ v) (" " ++ extra)).
  change (" " ++ extra) with (String " " extra).
  destruct (trimEnd_space extra) as [E|E]; rewrite E; simpl String.eqb.
  - exists v. rewrite Ht, toLowerCase_app, Hl. split; auto.
  - exists (v ++ String " " (Js.toLowerCase (Js.trimEnd extra))).
    rewrite append_assoc, !toLowerCase_app, Hl. split; [reflexivity|].
    now apply upToSpace_app_space.
Qed.

Lemma find_first {A : Type} (P : A -> bool) (pre : list A) (c : A) (post : list A) :
  P c = true -> (forall d, In d pre -> P d = false) ->
  find P (pre ++ c :: post) = Some c.
Proof.
  intros Hc. induction pre as [|d pre IH]; simpl; intros Hpre.
  - now rewrite Hc.
  - rewrite (Hpre d) by auto. apply IH. auto.
Qed.

Lemma find_nowhere {A : Type} (P : A -> bool) (l : list A) :
  (forall d, In d l -> P d = false) -> find P l = None.
Proof.
  induction l as [|d l IH]; simpl; intros H; [reflexivity|].
  rewrite (H d) by auto. auto.
Qed.

Lemma COMMANDS_truthy (c : string) : In c COMMANDS -> Js.truthy c = true.
Proof.
  unfold COMMANDS. simpl. intros H.
  repeat (destruct H as [<-|H]; [reflexivity|]). destruct H.
Qed.

Lemma truthy_false (s : string) : Js.truthy s = false <-> s = "".
Proof.
  unfold Js.truthy. destruct (String.eqb_spec s ""); simpl; split; congruence.
Qed.




(** C5, as the code has it.  For a line whose trimmed, lower-cased form is
    [theme ] followed by [rest], the theme name is the text of [rest] before
    its first space.  When that name is one of the three themes, the stored
    theme becomes the name and, after the prompt echo, the confirmation
    line naming it is appended; otherwise the stored theme is unchanged and
    the line [Unknown theme: ] followed by the name is appended.  In both
    cases the input buffer and the suggestion are reset and nothing else
    changes.  This holds whatever the engine's [trim] and [toLowerCase]
    compute. *)
Theorem theme_dispatch (trim toLowerCase : string -> string)
    (st : App) (cmd rest : string) (a : App) :
  toLowerCase (trim cmd) = "theme " ++ rest ->
  let target := activeTerminalId (state st) in
  let echo := "soluf-th@dev:~$ " ++ cmd in
  let name := upToSpace rest in
  exists a',
    exec (handleCommand_with trim toLowerCase st cmd) a = Some (a', [])
    /\ (In name THEMES ->
        a' = promptReset (on_state (with_terminalTheme name)
               (logged target [echo; "Terminal theme switched to " ++ name] a))
        /\ terminalTheme (state a') = name
        /\ terminals (state a')
           = appendLogs target [echo; "Terminal theme switched to " ++ name]
               (terminals (state a)))
    /\ (~ In name THEMES ->
        a' = promptReset (logged target [echo; "Unknown theme: " ++ name] a)
        /\ terminalTheme (state a') = terminalTheme (state a)
        /\ terminals (state a')
           = appendLogs target [echo; "Unknown theme: " ++ name] (terminals (state a)))
    /\ commandInput a' = ""
    /\ suggestion a' = "".
Proof.
  intros H target echo name.
  rewrite (handleCommand_theme trim toLowerCase st cmd rest a H).
  cbv zeta. fold target echo name.
  destruct (Js.includes THEMES name) eqn:E; eexists; (split; [reflexivity|]).
  - split; [intros _; repeat split|]. split; [|split; reflexivity].
    intros Hn. apply includes_not_In in Hn. congruence.
  - split; [|split; [intros _; repeat split|split; reflexivity]].
    intros Hn. apply includes_In in Hn. congruence.
Qed.

Lemma theme_dispatch_witness :
  (exists a',
     exec (handleCommand (initialApp 0) "theme cyberpunk") (initialApp 0) = Some (a', [])
     /\ terminalTheme (state a') = "cyberpunk"
     /\ logsOf "term-1" a'
        = (logsOf "term-1" (initialApp 0)
           ++ ["soluf-th@dev:~$ theme cyberpunk"; "Terminal theme switched to cyberpunk"])%list)
  /\ (exists a',
        exec (handleCommand (initialApp 0) "theme foo") (initialApp 0) = Some (a', [])
        /\ terminalTheme (state a') = "github-dark"
        /\ logsOf "term-1" a'
           = (logsOf "term-1" (initialApp 0)
              ++ ["soluf-th@dev:~$ theme foo"; "Unknown theme: foo"])%list).
Proof.
  split.
  - destruct (theme_dispatch Js.trim Js.toLowerCase (initialApp 0) "theme cyberpunk"
                "cyberpunk" (initialApp 0) eq_refl) as [a' [E [Hin _]]].
    destruct Hin as [_ [Ht Hts]]; [simpl; auto|].
    exists a'. split; [exact E|]. split; [exact Ht|].
    unfold logsOf, terminalById. rewrite Hts. reflexivity.
  - destruct (theme_dispatch Js.trim Js.toLowerCase (initialApp 0) "theme foo"
                "foo" (initialApp 0) eq_refl) as [a' [E [_ [Hout _]]]].
    destruct Hout as [_ [Ht Hts]];
      [simpl; intros [H|[H|[H|[]]]]; discriminate H|].
    exists a'. split; [exact E|]. split; [exact Ht|].
    unfold logsOf, terminalById. rewrite Hts. reflexivity.
Defined.

(** C5 as stated fails twice.  [monokai junk] is none of the three names,
    yet dispatching [theme monokai junk] changes the stored theme; and the
    name echoed for [theme Foo] is the case-folded [foo], not the name as
    typed. *)
Lemma theme_claim_counterexample :
  (~ In "monokai junk" THEMES
   /\ exists a', exec (handleCommand (initialApp 0) "theme monokai junk") (initialApp 0)
                 = Some (a', [])
                 /\ terminalTheme (state (initialApp 0)) = "github-dark"
                 /\ terminalTheme (state a') = "monokai")
  /\ (~ In "Foo" THEMES
      /\ exists a', exec (handleCommand (initialApp 0) "theme Foo") (initialApp 0)
                    = Some (a', [])
                    /\ logsOf "term-1" a'
                       = (logsOf "term-1" (initialApp 0)
                          ++ ["soluf-th@dev:~$ theme Foo"; "Unknown theme: foo"])%list
                    /\ ~ In "Unknown theme: Foo" (logsOf "term-1" a')).
Proof.
  split; (split; [simpl; intros [H|[H|[H|[]]]]; discriminate H|]).
  - eexists. split; [reflexivity|]. split; reflexivity.
  - eexists. split; [reflexivity|]. split; [reflexivity|].
    simpl. intros H. repeat (destruct H as [H|H]; [discriminate H|]). destruct H.
Qed.



(** C10, as the code has it.  The dispatch of a theme line takes for the
    name the text between [theme ] and the next space (U+0020) of the
    trimmed, lower-cased line, and ignores what follows that space.  For
    each of the three theme names [v]: whenever that form of the line is
    [theme v] followed by a space and any text, whatever the engine's [trim]
    and [toLowerCase] compute, and so for every line [theme v extra], the
    stored theme becomes [v] and, after the prompt echo, the confirmation
    line names [v] alone. *)
Theorem theme_extra_tokens_ignored (v : string) :
  In v THEMES ->
  (forall (trim toLowerCase : string -> string) (st : App) (cmd tail : string) (a : App),
     toLowerCase (trim cmd) = "theme " ++ v ++ " " ++ tail ->
     let confirmed := ["soluf-th@dev:~$ " ++ cmd; "Terminal theme switched to " ++ v] in
     exists a',
       exec (handleCommand_with trim toLowerCase st cmd) a = Some (a', [])
       /\ terminalTheme (state a') = v
       /\ terminals (state a')
          = appendLogs (activeTerminalId (state st)) confirmed (terminals (state a))
       /\ a' = promptReset (on_state (with_terminalTheme v)
                 (logged (activeTerminalId (state st)) confirmed a)))
  /\ (forall (st : App) (extra : string) (a : App),
        let cmd := "theme " ++ v ++ " " ++ extra in
        let confirmed := ["soluf-th@dev:~$ " ++ cmd; "Terminal theme switched to " ++ v] in
        exists a',
          exec (handleCommand st cmd) a = Some (a', [])
          /\ terminalTheme (state a') = v
          /\ terminals (state a')
             = appendLogs (activeTerminalId (state st)) confirmed (terminals (state a))
          /\ a' = promptReset (on_state (with_terminalTheme v)
                    (logged (activeTerminalId (state st)) confirmed a))).
Proof.
  intros Hv. pose proof (proj2 (includes_In THEMES v) Hv) as Hinc. split.
  - intros trim toLowerCase st cmd tail a Hclean confirmed.
    rewrite (handleCommand_theme trim toLowerCase st cmd (v ++ " " ++ tail) a Hclean).
    cbv zeta. change (" " ++ tail) with (String " " tail).
    rewrite (upToSpace_app_space v tail (proj2 (proj2 (THEMES_plain v Hv)))), Hinc.
    eexists. split; [reflexivity|]. split; [reflexivity|]. split; reflexivity.
  - intros st extra a cmd confirmed.
    destruct (clean_theme_line v extra Hv) as [rest [Hclean Hname]].
    unfold handleCommand.
    rewrite (handleCommand_theme Js.trim Js.toLowerCase st cmd rest a Hclean).
    cbv zeta. rewrite Hname, Hinc.
    eexists. split; [reflexivity|]. split; [reflexivity|]. split; reflexivity.
Qed.

Lemma theme_extra_tokens_ignored_witness :
  exists a',
    exec (handleCommand (initialApp 0) "theme monokai junk") (initialApp 0) = Some (a', [])
    /\ terminalTheme (state (initialApp 0)) = "github-dark"
    /\ terminalTheme (state a') = "monokai"
    /\ logsOf "term-1" a'
       = (logsOf "term-1" (initialApp 0)
          ++ ["soluf-th@dev:~$ theme monokai junk"; "Terminal theme switched to monokai"])%list.
Proof.
  destruct (proj2 (theme_extra_tokens_ignored "monokai" ltac:(simpl; auto))
              (initialApp 0) "junk" (initialApp 0)) as [a' [E [Ht [Hts _]]]].
  exists a'. split; [exact E|]. split; [reflexivity|]. split; [exact Ht|].
  unfold logsOf, terminalById. rewrite Hts. reflexivity.
Defined.

(** C10 as stated fails.  A tab is white space, yet in
    [theme monokai<TAB>junk] it does not end the name: the name read is
    [monokai<TAB>junk], the theme is not switched and the line is turned
    down.  And after a doubled space the name read is empty. *)
Lemma theme_name_ends_at_a_space_only :
  (exists a',
     exec (handleCommand (initialApp 0) ("theme monokai" ++ Js.tab ++ "junk")) (initialApp 0)
     = Some (a', [])
     /\ terminalTheme (state (initialApp 0)) = "github-dark"
     /\ terminalTheme (state a') = "github-dark"
     /\ logsOf "term-1" a'
        = (logsOf "term-1" (initialApp 0)
           ++ [("soluf-th@dev:~$ theme monokai" ++ Js.tab ++ "junk")%string;
               ("Unknown theme: monokai" ++ Js.tab ++ "junk")%string])%list)
  /\ (exists a',
        exec (handleCommand (initialApp 0) "theme  monokai junk") (initialApp 0)
        = Some (a', [])
        /\ terminalTheme (state a') = "github-dark"
        /\ logsOf "term-1" a'
           = (logsOf "term-1" (initialApp 0)
              ++ ["soluf-th@dev:~$ theme  monokai junk"; "Unknown theme: "])%list).
Proof.
  split; eexists; (split; [reflexivity|]); repeat split.
Qed.

(** ** The suggestion engine *)

(** C9.  The suggestion is a function of the partial input.  It is empty
    when the input is empty after trimming, and when no vocabulary entry
    starts with the lower-cased input; otherwise it is the entry of
    [COMMANDS] that starts with the lower-cased input and is preceded, in
    the declared order, by no other such entry.  It is what the change
    handler stores, next to the input as typed.  An input that is not blank
    and whose lower-cased form is [n] gets [npm test]; so does [n].  All but
    the last holds whatever the engine's [trim] and [toLowerCase]
    compute. *)
Theorem suggest_first_match (trim toLowerCase : string -> string) (val : string) :
  let matches c := Js.startsWith c (toLowerCase val) in
  let found := suggest_with trim toLowerCase val in
  (trim val = "" -> found = "")
  /\ (trim val <> "" -> (forall c, In c COMMANDS -> matches c = false) -> found = "")
  /\ (forall pre c post,
        trim val <> "" -> COMMANDS = (pre ++ c :: post)%list ->
        matches c = true -> (forall d, In d pre -> matches d = false) ->
        found = c)
  /\ (found = "" \/ In found COMMANDS)
  /\ (forall a,
        exists a',
          exec (onCommandChange_with trim toLowerCase val) a = Some (a', [])
          /\ suggestion a' = found /\ commandInput a' = val /\ state a' = state a)
  /\ (trim val <> "" -> toLowerCase val = "n" -> found = "npm test")
  /\ suggest "n" = "npm test".
Proof.
  intros matches found. unfold found, suggest_with.
  split; [|split; [|split; [|split; [|split; [|split]]]]].
  - intros H. now rewrite H.
  - intros Hne Hno.
    destruct (Js.truthy (trim val)); [|reflexivity].
    pose proof (find_nowhere matches COMMANDS Hno) as E.
    unfold matches in E. now rewrite E.
  - intros pre c post Hne Hsplit Hc Hpre.
    destruct (Js.truthy (trim val)) eqn:Ht;
      [|apply truthy_false in Ht; contradiction].
    pose proof (find_first matches pre c post Hc Hpre) as E.
    rewrite <- Hsplit in E. unfold matches in E. rewrite E.
    simpl. rewrite COMMANDS_truthy; [reflexivity|].
    rewrite Hsplit. apply in_or_app. right. now left.
  - destruct (Js.truthy (trim val)); [|now left].
    destruct (find _ COMMANDS) as [c|] eqn:E; [|now left].
    apply find_some in E as [Hin _]. right. simpl.
    now rewrite (COMMANDS_truthy c Hin).
  - intros a. eexists. split; [reflexivity|]. repeat split.
  - intros Hne Hn. rewrite Hn.
    destruct (Js.truthy (trim val)) eqn:Ht;
      [reflexivity|apply truthy_false in Ht; contradiction].
  - reflexivity.
Qed.

Lemma suggest_first_match_witness :
  suggest "NPM" = "npm test" /\ suggest "   " = "" /\ suggest "zz" = "".
Proof.
  destruct (suggest_first_match Js.trim Js.toLowerCase "NPM") as [_ [_ [Hfirst _]]].
  destruct (suggest_first_match Js.trim Js.toLowerCase "   ") as [Hblank _].
  destruct (suggest_first_match Js.trim Js.toLowerCase "zz") as [_ [Hnone _]].
  split; [|split].
  - apply (Hfirst ["help"; "clear"; "ls"] "npm test"
             ["npm deploy"; "audit"; "whoami"; "theme monokai"; "theme cyberpunk";
              "theme github-dark"]).
    + discriminate.
    + reflexivity.
    + reflexivity.
    + simpl. intros d [<-|[<-|[<-|[]]]]; reflexivity.
  - apply Hblank. reflexivity.
  - apply Hnone.
    + discriminate.
    + unfold COMMANDS. simpl. intros c H.
      repeat (destruct H as [<-|H]; [reflexivity|]). destruct H.
Defined.

(** ** The workflow run simulator *)

Lemma forEachStep_exec (st : App) (line : string) (l : list string) (k : Proc) (b : App) :
  exec (forEachStep st (line :: l) k) b =
  Some (logged (activeTerminalId (state st)) [line] b, [OnTimer 800 (forEachStep st l k)]).
Proof. reflexivity. Qed.

Lemma runWorkflow_accepted (st : App) (workflowId : string) (wf : WorkflowRun) :
  workflowById workflowId (state st) = Some wf -> status wf <> running ->
  runWorkflow st workflowId =
  (setState (markRunning workflowId) ;;
   forEachStep st (steps (workflowName wf)) (setState (markSuccess workflowId) ;; Ret)).
Proof.
  unfold workflowById, runWorkflow. intros -> Hs.
  destruct (status wf); try reflexivity. contradiction.
Qed.

(** C7.  When the render from which the trigger is called shows no
    workflow with the identifier, or shows it running, the trigger runs no
    updater and suspends nothing: whatever the live hooks are, they are left
    unchanged. *)
Theorem rejected_trigger_is_noop (st : App) (workflowId : string) (a : App) :
  workflowById workflowId (state st) = None
  \/ (exists wf, workflowById workflowId (state st) = Some wf /\ status wf = running) ->
  runWorkflow st workflowId = Ret /\ exec (runWorkflow st workflowId) a = Some (a, []).
Proof.
  unfold workflowById, runWorkflow. intros [H|[wf [H Hr]]]; rewrite H.
  - split; reflexivity.
  - rewrite Hr. split; reflexivity.
Qed.

Lemma rejected_trigger_is_noop_witness :
  (statusOf "wf2" wf2_running = Some running
   /\ runWorkflow wf2_running "wf2" = Ret
   /\ exec (runWorkflow wf2_running "wf2") wf2_running = Some (wf2_running, []))
  /\ (statusOf "wf9" (initialApp 0) = None
      /\ runWorkflow (initialApp 0) "wf9" = Ret
      /\ exec (runWorkflow (initialApp 0) "wf9") (initialApp 0) = Some (initialApp 0, [])).
Proof.
  split; (split; [reflexivity|]).
  - apply (rejected_trigger_is_noop wf2_running "wf2" wf2_running).
    right. eexists. split; reflexivity.
  - apply (rejected_trigger_is_noop (initialApp 0) "wf9" (initialApp 0)).
    left. reflexivity.
Defined.




Lemma find_map_mark (id : string) (f : WorkflowRun -> WorkflowRun) (ws : list WorkflowRun) :
  (forall w, wf_id (f w) = wf_id w) ->
  find (fun w => wf_id w =? id) (map (fun w => if wf_id w =? id then f w else w) ws)
  = option_map f (find (fun w => wf_id w =? id) ws).
Proof.
  intros Hid. induction ws as [|w ws IH]; simpl; [reflexivity|].
  destruct (wf_id w =? id) eqn:E.
  - now rewrite Hid, E.
  - now rewrite E.
Qed.

Lemma statusOf_markRunning (id : string) (a : App) :
  statusOf id (on_state (markRunning id) a)
  = option_map (fun _ => running) (statusOf id a).
Proof.
  unfold statusOf, workflowById. simpl.
  rewrite find_map_mark by reflexivity.
  now destruct (find _ (workflows (state a))).
Qed.

Lemma statusOf_markSuccess (id : string) (a : App) :
  statusOf id (on_state (markSuccess id) a)
  = option_map (fun _ => success) (statusOf id a).
Proof.
  unfold statusOf, workflowById. simpl.
  rewrite find_map_mark by reflexivity.
  now destruct (find _ (workflows (state a))).
Qed.

Lemma statusOf_logged (id target : string) (lines : list string) (a : App) :
  statusOf id (logged target lines a) = statusOf id a.
Proof. reflexivity. Qed.

Lemma nth_error_last {A : Type} (l : list A) (x : A) :
  nth_error (l ++ [x]) (length l) = Some x.
Proof. induction l; simpl; auto. Qed.

Lemma remove_nth_last {A : Type} (l : list A) (x : A) :
  remove_nth (length l) (l ++ [x]) = l.
Proof. induction l; simpl; congruence. Qed.

Lemma Forall_remove_nth {A : Type} (P : A -> Prop) (i : nat) (l : list A) :
  Forall P l -> Forall P (remove_nth i l).
Proof.
  intros H. revert i. induction H as [|x l Hx Hl IH]; intros [|i]; simpl; auto.
Qed.

(** Resuming the handler parked last. *)
Lemma step_wake_last (a : App) (l : list Parked) (ms : nat) (k : Proc)
    (a' : App) (ps : list Parked) :
  exec k a = Some (a', ps) ->
  step (mkSys a (l ++ [OnTimer ms k])) (Wake (length l) Timeout) = Some (mkSys a' (l ++ ps)).
Proof.
  intros H. unfold step. simpl parked. simpl live.
  rewrite nth_error_last. simpl. rewrite H. now rewrite remove_nth_last.
Qed.

(** ** No failure path *)

Lemma exec_keeps (I : App -> Prop) (p : Proc) :
  Keeps I p ->
  forall a a' ps, I a -> exec p a = Some (a', ps) -> I a' /\ Forall (KeepsParked I) ps.
Proof.
  induction 1 as [|u k Hu Hk IH|ms k Hk IH|code lang k Hk IH|message context k Hk IH
                  |child k Hc IHc Hk IHk]; simpl; intros a a' ps Ha E.
  - injection E as <- <-. auto.
  - destruct (u a) as [a1|] eqn:Eu; [|discriminate]. eauto.
  - injection E as <- <-. split; [assumption|]. constructor; [exact Hk|constructor].
  - injection E as <- <-. split; [assumption|]. constructor; [exact Hk|constructor].
  - injection E as <- <-. split; [assumption|]. constructor; [exact Hk|constructor].
  - destruct (exec child a) as [[a1 ps1]|] eqn:E1; [|discriminate].
    destruct (exec k a1) as [[a2 ps2]|] eqn:E2; [|discriminate].
    injection E as <- <-.
    destruct (IHc _ _ _ Ha E1) as [Ha1 Hps1].
    destruct (IHk _ _ _ Ha1 E2) as [Ha2 Hps2].
    split; [assumption|]. apply Forall_app. auto.
Qed.

Lemma noFailed_markRunning (id : string) (a : App) :
  noFailed a -> noFailed (on_state (markRunning id) a).
Proof.
  unfold noFailed. simpl. intros H. apply Forall_map.
  eapply Forall_impl; [|exact H]. intros w Hw. simpl.
  destruct (wf_id w =? id); simpl; [discriminate|assumption].
Qed.

Lemma noFailed_markSuccess (id : string) (a : App) :
  noFailed a -> noFailed (on_state (markSuccess id) a).
Proof.
  unfold noFailed. simpl. intros H. apply Forall_map.
  eapply Forall_impl; [|exact H]. intros w Hw. simpl.
  destruct (wf_id w =? id); simpl; [discriminate|assumption].
Qed.

Lemma sameWorkflows_keeps (u : Updater) :
  sameWorkflows u -> forall a a', noFailed a -> u a = Some a' -> noFailed a'.
Proof. unfold noFailed. intros H a a' Ha E. now rewrite (H a a' E). Qed.

Lemma sameWorkflows_addLog (st : App) (msg : string) (termId : option string) :
  sameWorkflows (addLog st msg termId).
Proof. intros a a' E. injection E as <-. reflexivity. Qed.

Ltac keeps_upd :=
  first
    [ apply sameWorkflows_keeps; apply sameWorkflows_addLog
    | apply sameWorkflows_keeps; intros ? ? E; injection E as <-; reflexivity
    | intros ? ? HI E; injection E as <-;
      first [apply noFailed_markRunning | apply noFailed_markSuccess]; exact HI ].

Ltac keeps :=
  repeat match goal with
  | |- Keeps _ Ret => apply Keeps_Ret
  | |- Keeps _ (Sleep _ _) => apply Keeps_Sleep
  | |- Keeps _ (Fork _ _) => apply Keeps_Fork
  | |- Keeps _ (AwaitAnalyze _ _ _) => apply Keeps_AwaitAnalyze; intros [?|]
  | |- Keeps _ (AwaitChat _ _ _) => apply Keeps_AwaitChat; intros [?|]
  | |- Keeps _ (Update _ _) => apply Keeps_Update; [keeps_upd|]
  | |- Keeps _ (if ?b then _ else _) => destruct b
  | |- Keeps _ (match ?x with _ => _ end) => destruct x
  end.

Lemma handleAnalyze_keeps (st : App) : Keeps noFailed (handleAnalyze st).
Proof. unfold handleAnalyze. keeps. Qed.

Lemma handleChat_keeps (st : App) : Keeps noFailed (handleChat st).
Proof. unfold handleChat, handleChat_with. keeps. Qed.

Lemma forEachStep_keeps (st : App) (l : list string) (k : Proc) :
  Keeps noFailed k -> Keeps noFailed (forEachStep st l k).
Proof. intros Hk. induction l; simpl; keeps; assumption. Qed.

Lemma runWorkflow_keeps (st : App) (workflowId : string) :
  Keeps noFailed (runWorkflow st workflowId).
Proof.
  unfold runWorkflow. keeps. apply forEachStep_keeps. keeps.
Qed.

Lemma handleCommand_keeps (st : App) (cmd : string) : Keeps noFailed (handleCommand st cmd).
Proof.
  unfold handleCommand, handleCommand_with. cbv zeta. apply Keeps_Update; [keeps_upd|].
  repeat match goal with
  | |- Keeps _ (Fork (handleAnalyze _) _) =>
      apply Keeps_Fork; [apply handleAnalyze_keeps|]
  | |- Keeps _ (Fork (runWorkflow _ _) _) =>
      apply Keeps_Fork; [apply runWorkflow_keeps|]
  | |- Keeps _ (if ?b then _ else _) => destruct b
  | |- Keeps _ (Update _ _) => apply Keeps_Update; [keeps_upd|]
  | |- Keeps _ (Sleep _ _) => apply Keeps_Sleep
  | |- Keeps _ Ret => apply Keeps_Ret
  end.
Qed.

Lemma closeTerminal_keeps (st : App) (id : string) : Keeps noFailed (closeTerminal st id).
Proof.
  unfold closeTerminal. destruct (_ <=? 1)%nat; [apply Keeps_Ret|].
  apply Keeps_Update; [|apply Keeps_Ret].
  apply sameWorkflows_keeps. intros a a' E. unfold setState_partial in E.
  destruct (activeTerminalId (state a) =? id);
    [destruct (filter _ _)|]; try discriminate; injection E as <-; reflexivity.
Qed.

Lemma handler_keeps (st : App) (e : Event) (p : Proc) :
  handler st e = Some p -> Keeps noFailed p.
Proof.
  destruct e; simpl; unfold guard;
    repeat match goal with
    | |- context [match findFile ?l ?i with _ => _ end] => destruct (findFile l i)
    | |- (if ?b then _ else _) = _ -> _ => destruct b
    end;
    intros E; try discriminate; injection E as <-.
  - destruct key; simpl; [apply handleCommand_keeps| |]; keeps.
  - unfold onCommandChange, onCommandChange_with. keeps.
  - apply runWorkflow_keeps.
  - unfold addTask, addTask_with. keeps.
  - keeps.
  - unfold toggleTask. keeps.
  - unfold deleteTask. keeps.
  - unfold createNewTerminal. keeps.
  - apply closeTerminal_keeps.
  - keeps.
  - keeps.
  - keeps.
  - keeps.
  - keeps.
  - keeps.
  - keeps.
  - keeps.
  - apply handleAnalyze_keeps.
  - apply handleChat_keeps.
  - keeps.
Qed.

Lemma user_event_neverFails (c c' : Sys) (e : Event) (p : Proc) :
  neverFails c -> handler (live c) e = Some p ->
  match exec p (live c) with
  | Some (a, ps) => Some (mkSys a (parked c ++ ps))
  | None => None
  end = Some c' ->
  neverFails c'.
Proof.
  intros [Hl Hp] Hh Hx.
  destruct (exec p (live c)) as [[a ps]|] eqn:Ex; [|discriminate].
  injection Hx as <-.
  destruct (exec_keeps noFailed p (handler_keeps _ _ _ Hh) _ _ _ Hl Ex) as [Ha Hps].
  split; simpl; [assumption|]. apply Forall_app. auto.
Qed.

Lemma wake_neverFails (c c' : Sys) (i : nat) (w : Wakeup) :
  neverFails c -> step c (Wake i w) = Some c' -> neverFails c'.
Proof.
  intros [Hl Hp] E. unfold step in E.
  destruct (nth_error (parked c) i) as [q|] eqn:En; [|discriminate].
  destruct (resume q w) as [k|] eqn:Er; [|discriminate].
  destruct (exec k (live c)) as [[a ps]|] eqn:Ex; [|discriminate].
  injection E as <-.
  assert (Hk : Keeps noFailed k).
  { apply nth_error_In in En. rewrite Forall_forall in Hp. specialize (Hp q En).
    destruct q, w; simpl in Er; try discriminate; injection Er as <-;
      simpl in Hp; auto. }
  destruct (exec_keeps noFailed k Hk _ _ _ Hl Ex) as [Ha Hps].
  split; simpl; [assumption|]. apply Forall_app. split; [|assumption].
  now apply Forall_remove_nth.
Qed.

Lemma step_neverFails (c c' : Sys) (e : Event) :
  neverFails c -> step c e = Some c' -> neverFails c'.
Proof.
  intros Hc E.
  destruct e; try (eapply wake_neverFails; eassumption); unfold step in E;
    match type of E with
    | context [handler (live c) ?e] =>
        destruct (handler (live c) e) as [p|] eqn:Hh; [|discriminate];
        exact (user_event_neverFails c c' e p Hc Hh E)
    end.
Qed.

Lemma run_neverFails (es : list Event) :
  forall c c', neverFails c -> run c es = Some c' -> neverFails c'.
Proof.
  induction es as [|e es IH]; simpl; intros c c' Hc E.
  - injection E as <-. assumption.
  - destruct (step c e) as [c1|] eqn:Es; [|discriminate].
    eapply IH; [|exact E]. eapply step_neverFails; eauto.
Qed.

Lemma boot_neverFails (now : Z) : neverFails (boot now).
Proof.
  split; simpl; [|constructor].
  unfold noFailed. simpl. repeat constructor; discriminate.
Qed.

Lemma run_button_enabled (a : App) (wf : WorkflowRun) :
  workflowById "wf2" (state a) = Some wf -> status wf = idle ->
  existsb (fun w => (wf_id w =? "wf2") && negb (WorkflowStatus_eqb (status w) running))
          (workflows (state a)) = true.
Proof.
  intros Hwf Hs. apply find_some in Hwf as [Hin Hid].
  apply existsb_exists. exists wf. split; [assumption|].
  now rewrite Hid, Hs.
Qed.

(** C8.  From any configuration whose [wf2] is idle, with the actions tab
    shown, clicking its run button and letting its 800 ms timer expire four
    times gives five renders: [wf2] is running in the first four and
    succeeded in the fifth, the four templated lines have been appended one
    per render before the success, and nothing of [wf2] stays suspended.
    Moreover no sequence of user events and wake-ups, from the seeded
    component, reaches a configuration in which a workflow has failed. *)
Theorem deployment_runs_to_success :
  (forall c wf,
     workflowById "wf2" (state (live c)) = Some wf -> status wf = idle ->
     activeSidebarTab (state (live c)) = actions ->
     let n := length (parked c) in
     let target := activeTerminalId (state (live c)) in
     let ts := terminals (state (live c)) in
     let lines := steps (workflowName wf) in
     exists c1 c2 c3 c4 c5,
       step c (ClickRunWorkflow "wf2") = Some c1
       /\ step c1 (Wake n Timeout) = Some c2
       /\ step c2 (Wake n Timeout) = Some c3
       /\ step c3 (Wake n Timeout) = Some c4
       /\ step c4 (Wake n Timeout) = Some c5
       /\ map (fun x => statusOf "wf2" (live x)) [c; c1; c2; c3; c4; c5]
          = [Some idle; Some running; Some running; Some running; Some running;
             Some success]
       /\ map (fun x => terminals (state (live x))) [c1; c2; c3; c4; c5]
          = [appendLogs target (firstn 1 lines) ts; appendLogs target (firstn 2 lines) ts;
             appendLogs target (firstn 3 lines) ts; appendLogs target lines ts;
             appendLogs target lines ts]
       /\ length lines = 4
       /\ parked c5 = parked c)
  /\ (forall now es c',
        run (boot now) es = Some c' ->
        Forall (fun w => status w <> failed) (workflows (state (live c')))).
Proof.
  split.
  - intros [a l] wf Hwf Hs Htab n target ts lines. simpl in Hwf, Htab, n, target, ts.
    assert (Hidle : statusOf "wf2" a = Some idle).
    { unfold statusOf. rewrite Hwf. simpl. now rewrite Hs. }
    set (name := workflowName wf).
    set (k := setState (markSuccess "wf2") ;; Ret).
    set (l0 := "[" ++ name ++ "] Starting runner...").
    set (l1 := "[" ++ name ++ "] Checking out code...").
    set (l2 := "[" ++ name ++ "] Deployment success!").
    set (l3 := "[" ++ name ++ "] Job finished.").
    set (a1 := logged target [l0] (on_state (markRunning "wf2") a)).
    set (a2 := logged target [l1] a1).
    set (a3 := logged target [l2] a2).
    set (a4 := logged target [l3] a3).
    exists (mkSys a1 (l ++ [OnTimer 800 (forEachStep a [l1; l2; l3] k)])).
    exists (mkSys a2 (l ++ [OnTimer 800 (forEachStep a [l2; l3] k)])).
    exists (mkSys a3 (l ++ [OnTimer 800 (forEachStep a [l3] k)])).
    exists (mkSys a4 (l ++ [OnTimer 800 k])).
    exists (mkSys (on_state (markSuccess "wf2") a4) (l ++ [])).
    split; [|split; [|split; [|split; [|split]]]].
    + unfold step, handler, guard. simpl live. simpl parked.
      rewrite Htab, (run_button_enabled a wf Hwf Hs). simpl andb. cbv iota.
      rewrite (runWorkflow_accepted a "wf2" wf Hwf) by (rewrite Hs; discriminate).
      reflexivity.
    + apply step_wake_last. reflexivity.
    + apply step_wake_last. reflexivity.
    + apply step_wake_last. reflexivity.
    + apply step_wake_last. reflexivity.
    + split; [|split; [|split]].
      * cbn [map live]. unfold a4, a3, a2, a1.
        rewrite statusOf_markSuccess, !statusOf_logged, statusOf_markRunning, Hidle.
        reflexivity.
      * cbn [map live]. unfold a4, a3, a2, a1, logged, on_state. simpl.
        rewrite !appendLogs_app. reflexivity.
      * reflexivity.
      * simpl. now rewrite app_nil_r.
  - intros now es c' E.
    exact (proj1 (run_neverFails es (boot now) c' (boot_neverFails now) E)).
Qed.

Lemma deployment_runs_to_success_witness :
  (exists c0 c1 c2 c3 c4 c5,
     run (boot 0) [ClickSidebarTab actions] = Some c0
     /\ step c0 (ClickRunWorkflow "wf2") = Some c1
     /\ step c1 (Wake 0 Timeout) = Some c2
     /\ step c2 (Wake 0 Timeout) = Some c3
     /\ step c3 (Wake 0 Timeout) = Some c4
     /\ step c4 (Wake 0 Timeout) = Some c5
     /\ map (fun x => statusOf "wf2" (live x)) [c0; c1; c2; c3; c4; c5]
        = [Some idle; Some running; Some running; Some running; Some running; Some success]
     /\ map (fun x => length (logsOf "term-1" (live x))) [c0; c1; c2; c3; c4; c5]
        = [2; 3; 4; 5; 6; 6])
  /\ (exists c', run (boot 0) [CommandChange "npm deploy"; KeyDown Enter; Wake 0 Timeout]
                 = Some c'
                 /\ Forall (fun w => status w <> failed) (workflows (state (live c')))).
Proof.
  split.
  - exists (mkSys (on_state (with_activeSidebarTab actions) (initialApp 0)) []).
    destruct (proj1 deployment_runs_to_success
                (mkSys (on_state (with_activeSidebarTab actions) (initialApp 0)) [])
                (mkWorkflowRun "wf2" "CD Deployment" idle [])
                eq_refl eq_refl eq_refl)
      as [c1 [c2 [c3 [c4 [c5 [H1 [H2 [H3 [H4 [H5 [Hst [Hts _]]]]]]]]]]]].
    exists c1, c2, c3, c4, c5. repeat (split; [assumption || reflexivity|]).
    simpl in Hts. injection Hts as E1 E2 E3 E4 E5.
    unfold logsOf, terminalById. simpl map. rewrite E1, E2, E3, E4, E5. reflexivity.
  - eexists. split; [reflexivity|].
    apply (proj2 deployment_runs_to_success 0%Z
             [CommandChange "npm deploy"; KeyDown Enter; Wake 0 Timeout]).
    reflexivity.
Defined.

(** ** The terminal session manager *)

Lemma closeTerminal_exec (st : App) (id : string) (a : App) :
  exec (closeTerminal st id) a =
  if (length (terminals (state st)) <=? 1)%nat then Some (a, [])
  else
    let newTerms := filter (fun t => negb (term_id t =? id)) (terminals (state st)) in
    if activeTerminalId (state a) =? id then
      match newTerms with
      | first :: _ =>
          Some (on_state (fun s => with_activeTerminalId (term_id first)
                                     (with_terminals newTerms s)) a, [])
      | [] => None
      end
    else Some (on_state (with_terminals newTerms) a, []).
Proof.
  unfold closeTerminal. destruct (_ <=? 1)%nat; [reflexivity|].
  simpl. unfold setState_partial.
  destruct (activeTerminalId (state a) =? id); [destruct (filter _ _)|]; reflexivity.
Qed.

Lemma createNewTerminal_exec (now : Z) (a : App) :
  exec (createNewTerminal now) a =
  Some (on_state (fun s =>
          with_activeTerminalId ("term-" ++ Js.show_int now)
            (with_terminals
               (terminals s
                ++ [mkTerminalInstance ("term-" ++ Js.show_int now) "bash"
                      ["Terminal created."]])%list s)) a, []).
Proof. reflexivity. Qed.

Section Sessions.

Variable id : string.

Lemma others_ids_incl (l : list TerminalInstance) (x : string) :
  In x (map term_id (filter (fun t => negb (term_id t =? id)) l)) -> In x (map term_id l) /\ x <> id.
Proof.
  rewrite !in_map_iff. intros [t [<- Ht]].
  apply filter_In in Ht as [Hin Hne]. split; [eauto|].
  intros E. rewrite E, String.eqb_refl in Hne. discriminate.
Qed.

Lemma others_ids_keep (l : list TerminalInstance) (x : string) :
  In x (map term_id l) -> x <> id -> In x (map term_id (filter (fun t => negb (term_id t =? id)) l)).
Proof.
  rewrite !in_map_iff. intros [t [<- Ht]] Hne.
  exists t. split; [reflexivity|]. apply filter_In. split; [assumption|].
  apply String.eqb_neq in Hne. now rewrite Hne.
Qed.

Lemma others_NoDup (l : list TerminalInstance) :
  NoDup (map term_id l) -> NoDup (map term_id (filter (fun t => negb (term_id t =? id)) l)).
Proof.
  induction l as [|t l IH]; simpl; intros H; [constructor|].
  inversion H as [|? ? Hnotin Hnd]; subst.
  destruct (term_id t =? id); simpl; auto.
  constructor; auto. intros Hin. apply Hnotin.
  exact (proj1 (others_ids_incl l (term_id t) Hin)).
Qed.

Lemma others_nonempty (l : list TerminalInstance) :
  NoDup (map term_id l) -> 2 <= length l -> filter (fun t => negb (term_id t =? id)) l <> [].
Proof.
  destruct l as [|t1 [|t2 l]]; simpl; intros H Hlen; try lia.
  inversion H as [|? ? Hnotin _]; subst.
  destruct (String.eqb_spec (term_id t1) id) as [E1|]; simpl; [|discriminate].
  destruct (String.eqb_spec (term_id t2) id) as [E2|]; simpl; [|discriminate].
  exfalso. apply Hnotin. left. congruence.
Qed.

End Sessions.

Lemma active_single (l : list TerminalInstance) (x : string) :
  NoDup (map term_id l) -> In x (map term_id l) ->
  exists t, filter (fun t => x =? term_id t) l = [t] /\ In t l.
Proof.
  induction l as [|t l IH]; simpl; intros Hnd Hin; [contradiction|].
  inversion Hnd as [|? ? Hnotin Hnd']; subst.
  destruct (String.eqb_spec x (term_id t)) as [E|Hne].
  - exists t. split; [|now left]. f_equal.
    clear IH Hin Hnd Hnd'. induction l as [|u l IHl]; simpl; [reflexivity|].
    destruct (String.eqb_spec x (term_id u)) as [Eu|].
    + exfalso. apply Hnotin. left. congruence.
    + apply IHl. intros H. apply Hnotin. now right.
  - destruct Hin as [E|Hin]; [congruence|].
    destruct (IH Hnd' Hin) as [u [Hf Hu]]. exists u. split; [assumption|now right].
Qed.

(** The sessions of the data model are those the manager builds, as long
    as every creation reads a clock value that names no shown session. *)
Lemma sessionsOk_initial (now1 now2 : Z) : sessionsOk (state (initialAppAt now1 now2)).
Proof.
  split; unfold termIds; simpl; [|now left].
  repeat constructor; simpl; intros H;
    repeat (destruct H as [H|H]; [discriminate H|]); destruct H.
Qed.

Lemma sessionsOk_create (now : Z) (a a' : App) (ps : list Parked) :
  sessionsOk (state a) ->
  ~ In ("term-" ++ Js.show_int now) (termIds (state a)) ->
  exec (createNewTerminal now) a = Some (a', ps) ->
  sessionsOk (state a').
Proof.
  intros [Hnd _] Hfresh E. rewrite createNewTerminal_exec in E. injection E as <- _.
  unfold sessionsOk, termIds in *. simpl. rewrite map_app. simpl. split.
  - apply NoDup_app; [assumption|repeat constructor; intros []|].
    intros x Hx [<-|[]]. contradiction.
  - apply in_or_app. right. now left.
Qed.

Lemma sessionsOk_switch (id : string) (a : App) :
  sessionsOk (state a) ->
  existsb (fun t => term_id t =? id) (terminals (state a)) = true ->
  sessionsOk (state (on_state (with_activeTerminalId id) a)).
Proof.
  intros [Hnd _] Hex. split; unfold termIds in *; simpl; [assumption|].
  apply existsb_exists in Hex as [t [Ht E]]. apply String.eqb_eq in E. subst.
  now apply in_map.
Qed.

Lemma sessionsOk_logged (target : string) (lines : list string) (a : App) :
  sessionsOk (state a) -> sessionsOk (state (logged target lines a)).
Proof.
  assert (E : forall ts, map term_id (appendLogs target lines ts) = map term_id ts).
  { intros ts. unfold appendLogs. rewrite map_map. apply map_ext. intros t.
    now destruct (term_id t =? target). }
  intros [Hnd Hin]. split; unfold termIds in *; simpl; now rewrite E.
Qed.

Lemma active_kept_by_termOp (a a' : App) (o : TermOp) (ps : list Parked) :
  In (activeTerminalId (state a)) (termIds (state a)) ->
  exec (termOp a o) a = Some (a', ps) ->
  In (activeTerminalId (state a')) (termIds (state a')).
Proof.
  intros Hin E. destruct o as [now|id]; unfold termOp in E.
  - rewrite createNewTerminal_exec in E. injection E as <- _.
    unfold termIds. simpl. rewrite map_app. apply in_or_app. right. now left.
  - rewrite closeTerminal_exec in E.
    destruct (_ <=? 1)%nat; [injection E as <- _; assumption|].
    cbv zeta in E. destruct (String.eqb_spec (activeTerminalId (state a)) id) as [Ea|Hne].
    + destruct (filter _ _) as [|first rest] eqn:Ef; [discriminate|].
      injection E as <- _. unfold termIds. simpl. now left.
    + injection E as <- _. unfold termIds. simpl.
      now apply others_ids_keep.
Qed.

Lemma sessionsOk_close (a : App) (id : string) :
  sessionsOk (state a) ->
  exists a', exec (closeTerminal a id) a = Some (a', []) /\ sessionsOk (state a').
Proof.
  intros [Hnd Hin]. unfold termIds in Hnd, Hin. rewrite closeTerminal_exec.
  destruct (Nat.leb_spec (length (terminals (state a))) 1) as [Hle|Hgt].
  - exists a. split; [reflexivity|split; assumption].
  - cbv zeta.
    pose proof (others_nonempty id _ Hnd Hgt) as Hne.
    pose proof (others_NoDup id _ Hnd) as Hnd'.
    destruct (String.eqb_spec (activeTerminalId (state a)) id) as [Ea|Hna].
    + destruct (filter _ (terminals (state a))) as [|first rest] eqn:Ef;
        [contradiction|].
      eexists. split; [reflexivity|].
      split; unfold termIds; simpl; [exact Hnd'|now left].
    + eexists. split; [reflexivity|].
      split; unfold termIds; simpl; [exact Hnd'|now apply others_ids_keep].
Qed.

Lemma runOps_fresh (ops : list TermOp) :
  forall a, sessionsOk (state a) -> freshRun a ops ->
            exists a', runOps a ops = Some a' /\ sessionsOk (state a').
Proof.
  induction ops as [|o ops IH]; simpl; intros a Hok Hfresh.
  - eauto.
  - destruct Hfresh as [Hnew Hrest]. destruct o as [now|id]; unfold termOp in *.
    + rewrite createNewTerminal_exec in *. apply IH; [|exact Hrest].
      eapply sessionsOk_create; [exact Hok|exact Hnew|apply createNewTerminal_exec].
    + destruct (sessionsOk_close a id Hok) as [a1 [E Hok1]].
      rewrite E in *. apply IH; assumption.
Qed.

(** C2, on the input that breaks it.  Two creations that read the same
    clock value put two sessions under one id.  Once the two seeded sessions
    are closed, every session shown has that id and it is the active one:
    the guard of [closeTerminal] counts two sessions and lets the close
    through, no session is left, and the updater throws when it reads the
    first of them.  Called from that same render after one more creation,
    the close does not throw and leaves no session at all. *)
Lemma duplicated_id_empties_the_sessions :
  exists st live a',
    runOps (initialApp 0) [Create 5; Create 5; Close "term-1"; Close "term-2"] = Some st
    /\ termIds (state st) = ["term-5"; "term-5"]
    /\ activeTerminalId (state st) = "term-5"
    /\ exec (closeTerminal st "term-5") st = None
    /\ runOps (initialApp 0)
         [Create 5; Create 5; Close "term-1"; Close "term-2"; Close "term-5"] = None
    /\ exec (createNewTerminal 7) st = Some (live, [])
    /\ exec (closeTerminal st "term-5") live = Some (a', [])
    /\ terminals (state a') = []
    /\ activeTerminalId (state a') = "term-7".
Proof.
  do 3 eexists.
  split; [reflexivity|]. split; [reflexivity|]. split; [reflexivity|].
  split; [reflexivity|]. split; [reflexivity|]. split; [reflexivity|].
  split; [reflexivity|]. split; reflexivity.
Qed.

(** C3, on the input that breaks it.  After two creations that read the
    same clock value, closing a seeded session leaves two sessions rendered
    active; and once both seeded sessions are closed, closing the active
    session, which is not the last one, makes no session active: the
    updater throws. *)
Lemma duplicated_id_leaves_two_active :
  exists a a2,
    runOps (initialApp 0) [Create 5; Create 5; Close "term-1"] = Some a
    /\ termIds (state a) = ["term-2"; "term-5"; "term-5"]
    /\ map term_id (activeSessions (state a)) = ["term-5"; "term-5"]
    /\ runOps a [Close "term-2"] = Some a2
    /\ termIds (state a2) = ["term-5"; "term-5"]
    /\ activeTerminalId (state a2) = "term-5"
    /\ exec (closeTerminal a2 "term-5") a2 = None.
Proof.
  do 2 eexists.
  split; [reflexivity|]. split; [reflexivity|]. split; [reflexivity|].
  split; [reflexivity|]. split; [reflexivity|]. split; reflexivity.
Qed.

(** X22.  In a component whose session ids are pairwise distinct and
    whose active id names one of them, a close never throws and leaves the
    sessions in the same condition: exactly one session is rendered active
    and it belongs to the remaining collection.  When at least two sessions
    are shown, the remaining collection is the shown one without the closed
    id; when the closed session was the active one, the first remaining
    session becomes active, and otherwise the active session stays.  When at
    most one session is shown, nothing changes. *)
Theorem close_keeps_one_active (st : App) (id : string) :
  sessionsOk (state st) ->
  exists a',
    exec (closeTerminal st id) st = Some (a', [])
    /\ sessionsOk (state a')
    /\ (exists t, activeSessions (state a') = [t] /\ In t (terminals (state a')))
    /\ (2 <= length (terminals (state st)) ->
        terminals (state a')
        = filter (fun t => negb (term_id t =? id)) (terminals (state st))
        /\ (activeTerminalId (state st) = id ->
            exists first rest,
              terminals (state a') = first :: rest
              /\ activeTerminalId (state a') = term_id first)
        /\ (activeTerminalId (state st) <> id ->
            activeTerminalId (state a') = activeTerminalId (state st)))
    /\ (length (terminals (state st)) <= 1 -> a' = st).
Proof.
  intros [Hnd Hin]. unfold termIds in Hnd, Hin.
  assert (one : forall a', sessionsOk (state a') ->
            exists t, activeSessions (state a') = [t] /\ In t (terminals (state a'))).
  { intros a' [Hnd' Hin']. apply active_single; assumption. }
  rewrite closeTerminal_exec.
  destruct (Nat.leb_spec (length (terminals (state st))) 1) as [Hle|Hgt].
  - exists st. split; [reflexivity|]. split; [split; assumption|].
    split; [apply one; split; assumption|]. split; [lia|reflexivity].
  - cbv zeta.
    pose proof (others_nonempty id _ Hnd Hgt) as Hne.
    pose proof (others_NoDup id _ Hnd) as Hnd'.
    destruct (String.eqb_spec (activeTerminalId (state st)) id) as [Ea|Hna].
    + destruct (filter _ (terminals (state st))) as [|first rest] eqn:Ef;
        [contradiction|].
      eexists. split; [reflexivity|].
      assert (Hok : sessionsOk (state (on_state (fun s =>
                      with_activeTerminalId (term_id first)
                        (with_terminals (first :: rest) s)) st))).
      { split; unfold termIds; simpl; [exact Hnd'|now left]. }
      split; [exact Hok|]. split; [apply one; exact Hok|].
      split; [|simpl; lia]. intros _. simpl.
      split; [reflexivity|]. split; [|contradiction]. intros _. eauto.
    + eexists. split; [reflexivity|].
      assert (Hok : sessionsOk (state (on_state (with_terminals
                      (filter (fun t => negb (term_id t =? id)) (terminals (state st))))
                      st))).
      { split; unfold termIds; simpl; [exact Hnd'|now apply others_ids_keep]. }
      split; [exact Hok|]. split; [apply one; exact Hok|].
      split; [|simpl; lia]. intros _. simpl.
      split; [reflexivity|]. split; [contradiction|]. reflexivity.
Qed.

Lemma close_keeps_one_active_witness :
  exists a',
    exec (closeTerminal (initialApp 0) "term-1") (initialApp 0) = Some (a', [])
    /\ activeTerminalId (state a') = "term-2"
    /\ map term_id (activeSessions (state a')) = ["term-2"]
    /\ map term_id (terminals (state a')) = ["term-2"].
Proof.
  destruct (close_keeps_one_active (initialApp 0) "term-1" (sessionsOk_initial 0 0))
    as [a' [Hex [_ [_ [Htwo _]]]]].
  exists a'. split; [exact Hex|].
  simpl in Hex. injection Hex as <-. repeat split.
Defined.

(** X23.  As long as every creation reads a clock value whose id names no
    session shown, no sequence of creations and closes, each called from the
    current render, throws, and every one leaves the ids pairwise distinct,
    the active id among them, at least one session, and exactly one session
    rendered active.  A close called when at most one session is shown runs
    no updater, so it leaves all hooks as they are; a creation always adds
    exactly one session. *)
Theorem fresh_sessions_never_run_out :
  (forall now1 now2 ops,
     freshRun (initialAppAt now1 now2) ops ->
     exists a,
       runOps (initialAppAt now1 now2) ops = Some a
       /\ NoDup (termIds (state a))
       /\ In (activeTerminalId (state a)) (termIds (state a))
       /\ 1 <= length (terminals (state a))
       /\ exists t, activeSessions (state a) = [t] /\ In t (terminals (state a)))
  /\ (forall st id a,
        length (terminals (state st)) <= 1 ->
        closeTerminal st id = Ret /\ exec (closeTerminal st id) a = Some (a, []))
  /\ (forall now a,
        exists a', exec (createNewTerminal now) a = Some (a', [])
                   /\ length (terminals (state a')) = S (length (terminals (state a)))).
Proof.
  split; [|split].
  - intros now1 now2 ops Hfresh.
    destruct (runOps_fresh ops (initialAppAt now1 now2) (sessionsOk_initial now1 now2) Hfresh)
      as [a [E [Hnd Hin]]].
    exists a. split; [exact E|]. split; [exact Hnd|]. split; [exact Hin|].
    unfold termIds in Hnd, Hin. split.
    + destruct (terminals (state a)); simpl in *; [contradiction|lia].
    + now apply active_single.
  - intros st id a Hlen. unfold closeTerminal.
    apply Nat.leb_le in Hlen. rewrite Hlen. split; reflexivity.
  - intros now a. eexists. split; [apply createNewTerminal_exec|].
    simpl. rewrite length_app. simpl. lia.
Qed.

Lemma fresh_sessions_never_run_out_witness :
  exists a,
    runOps (initialApp 0)
      [Create 5; Create 6; Close "term-5"; Close "term-1"; Close "term-2"; Close "term-6"]
    = Some a
    /\ termIds (state a) = ["term-6"]
    /\ activeTerminalId (state a) = "term-6".
Proof.
  destruct (proj1 fresh_sessions_never_run_out 0%Z 0%Z
              [Create 5; Create 6; Close "term-5"; Close "term-1"; Close "term-2";
               Close "term-6"]) as [a [E _]].
  - simpl. repeat split;
      intros H; repeat (destruct H as [H|H]; [discriminate H|]); destruct H.
  - exists a. split; [exact E|].
    vm_compute in E. injection E as <-. split; reflexivity.
Defined.

(** * Further properties of the component *)

Lemma on_state_same (f : ProjectState -> ProjectState) (a : App) :
  f (state a) = state a -> on_state f a = a.
Proof. destruct a. unfold on_state. simpl. now intros ->. Qed.

Lemma on_state_on_state (f g : ProjectState -> ProjectState) (a : App) :
  on_state g (on_state f a) = on_state (fun s => g (f s)) a.
Proof. reflexivity. Qed.

Lemma with_tasks_same (l : list Task) (s : ProjectState) :
  l = tasks s -> with_tasks l s = s.
Proof. intros ->. now destruct s. Qed.

Lemma with_terminals_same (l : list TerminalInstance) (s : ProjectState) :
  l = terminals s -> with_terminals l s = s.
Proof. intros ->. now destruct s. Qed.

Lemma map_same {A : Type} (f : A -> A) (l : list A) :
  (forall x, In x l -> f x = x) -> map f l = l.
Proof.
  induction l as [|x l IH]; simpl; intros H; [reflexivity|].
  rewrite (H x) by auto. f_equal. auto.
Qed.

Lemma filter_same {A : Type} (p : A -> bool) (l : list A) :
  (forall x, In x l -> p x = true) -> filter p l = l.
Proof.
  induction l as [|x l IH]; simpl; intros H; [reflexivity|].
  rewrite (H x) by auto. f_equal. auto.
Qed.

(** ** The task list *)

(** X1.  Toggling a task flips the completion flag of the tasks with that
    id and nothing else; toggling the same id again restores every hook, and
    toggling an id that no task has leaves every hook as it was. *)
Theorem toggleTask_involutive (id : string) (a : App) :
  exists a1,
    exec (toggleTask id) a = Some (a1, [])
    /\ exec (toggleTask id) a1 = Some (a, [])
    /\ map task_id (tasks (state a1)) = map task_id (tasks (state a))
    /\ map text (tasks (state a1)) = map text (tasks (state a))
    /\ map completed (tasks (state a1))
       = map (fun t => if task_id t =? id then negb (completed t) else completed t)
             (tasks (state a))
    /\ ((forall t, In t (tasks (state a)) -> task_id t <> id) -> a1 = a).
Proof.
  eexists. split; [reflexivity|]. split; [|split; [|split; [|split]]].
  - destruct a as [s r ld ci cm inp sg nt]. destruct s. simpl.
    unfold on_state, with_tasks. simpl. do 4 f_equal.
    rewrite map_map. apply map_same. intros t _.
    destruct (task_id t =? id) eqn:E; simpl; rewrite E.
    + destruct t. simpl. now rewrite negb_involutive.
    + reflexivity.
  - simpl. rewrite map_map. apply map_ext. intros t. now destruct (task_id t =? id).
  - simpl. rewrite map_map. apply map_ext. intros t. now destruct (task_id t =? id).
  - simpl. rewrite map_map. apply map_ext. intros t. now destruct (task_id t =? id).
  - intros H. apply on_state_same, with_tasks_same, map_same. intros t Ht. apply H in Ht. apply String.eqb_neq in Ht. now rewrite Ht.
Qed.

(** X2.  Deleting removes exactly the tasks with the id and keeps the others
    in their order; it changes no other hook; deleting again, or deleting an
    id that no task has, changes nothing; and a toggle before the delete
    makes no difference. *)
Theorem deleteTask_removes_matching (id : string) (a : App) :
  exists a1,
    exec (deleteTask id) a = Some (a1, [])
    /\ (forall t, In t (tasks (state a1)) <-> In t (tasks (state a)) /\ task_id t <> id)
    /\ map task_id (tasks (state a1))
       = filter (fun i => negb (i =? id)) (map task_id (tasks (state a)))
    /\ exec (deleteTask id) a1 = Some (a1, [])
    /\ ((forall t, In t (tasks (state a)) -> task_id t <> id) -> a1 = a)
    /\ (forall a2, exec (toggleTask id) a = Some (a2, []) ->
                   exec (deleteTask id) a2 = Some (a1, [])).
Proof.
  eexists. split; [reflexivity|]. split; [|split; [|split; [|split]]].
  - intros t. simpl. rewrite filter_In. split; intros [H1 H2]; split; auto.
    + intros E. rewrite E, String.eqb_refl in H2. discriminate.
    + apply String.eqb_neq in H2. now rewrite H2.
  - simpl. induction (tasks (state a)) as [|t l IH]; simpl; [reflexivity|].
    destruct (task_id t =? id); simpl; congruence.
  - simpl. unfold on_state, with_tasks. simpl. do 4 f_equal. apply filter_same.
    intros t Ht. now apply filter_In in Ht.
  - intros H. apply on_state_same, with_tasks_same, filter_same. intros t Ht. apply H in Ht. apply String.eqb_neq in Ht. now rewrite Ht.
  - intros a2 E. simpl in E. injection E as <-. simpl.
    unfold on_state, with_tasks. simpl. do 4 f_equal.
    induction (tasks (state a)) as [|t l IH]; simpl; [reflexivity|].
    destruct (task_id t =? id) eqn:Et; simpl; rewrite Et; simpl; congruence.
Qed.

(** X3.  Submitting a task text that trimming leaves empty does nothing at
    all: no task is added and the text field is not cleared.  Otherwise one
    task is put in front of the list, which is otherwise kept; its text is
    the trimmed input, hence not empty; it is not completed; its id is
    [task-] followed by the first clock reading and its creation time is the
    second; the text field is cleared and no other hook changes.  This holds
    whatever the engine's [trim] computes. *)
Theorem addTask_prepends_trimmed (trim : string -> string)
    (st : App) (now1 now2 : Z) (a : App) :
  (trim (newTaskText st) = "" ->
   addTask_with trim st now1 now2 = Ret
   /\ exec (addTask_with trim st now1 now2) a = Some (a, []))
  /\ (trim (newTaskText st) <> "" ->
      exists t a',
        exec (addTask_with trim st now1 now2) a = Some (a', [])
        /\ tasks (state a') = t :: tasks (state a)
        /\ newTaskText a' = ""
        /\ a' = with_newTaskText "" (on_state (with_tasks (t :: tasks (state a))) a)
        /\ text t = trim (newTaskText st)
        /\ text t <> ""
        /\ completed t = false
        /\ task_id t = "task-" ++ Js.show_int now1
        /\ createdAt t = now2).
Proof.
  unfold addTask_with. split; intros H.
  - rewrite H. split; reflexivity.
  - destruct (Js.truthy (trim (newTaskText st))) eqn:E;
      [|apply truthy_false in E; contradiction].
    simpl. eexists. eexists. split; [reflexivity|]. simpl.
    repeat split; assumption.
Qed.

Lemma addTask_prepends_trimmed_witness :
  exists t a',
    exec (addTask typing_a_task 7 8) typing_a_task = Some (a', [])
    /\ newTaskText typing_a_task = "  Write spec  "
    /\ newTaskText a' = ""
    /\ tasks (state a') = t :: tasks (state typing_a_task)
    /\ text t = "Write spec" /\ task_id t = "task-7" /\ completed t = false.
Proof.
  destruct (proj2 (addTask_prepends_trimmed Js.trim typing_a_task 7 8 typing_a_task))
    as [t [a' [E [Hts [Hnt [_ [Ht [_ [Hc [Hi _]]]]]]]]]]; [discriminate|].
  exists t, a'. repeat split; assumption.
Defined.

(** ** The file tree *)

Lemma FileEntry_nested_ind (P : FileEntry -> Prop) :
  (forall i n t l c, P (mkFileEntry i n t l c None)) ->
  (forall i n t l c cs, Forall P cs -> P (mkFileEntry i n t l c (Some cs))) ->
  forall f, P f.
Proof.
  intros Hleaf Hnode. fix IH 1. intros [i n t l c [cs|]]; [|apply Hleaf].
  apply Hnode. revert cs. fix IHcs 1. intros [|x cs].
  - constructor.
  - constructor; [apply IH|apply IHcs].
Qed.

Lemma find_app {A : Type} (p : A -> bool) (l1 l2 : list A) :
  find p (l1 ++ l2) = match find p l1 with
                      | Some x => Some x
                      | None => find p l2
                      end.
Proof.
  induction l1 as [|x l1 IH]; simpl; [reflexivity|]. now destruct (p x).
Qed.

Lemma findEntry_preorder (id : string) (f : FileEntry) :
  findEntry id f = find (fun g => file_id g =? id) (entriesOf f).
Proof.
  induction f as [i n t l c|i n t l c cs IH] using FileEntry_nested_ind; simpl.
  - now destruct (i =? id).
  - destruct (i =? id); [reflexivity|].
    induction IH as [|x cs Hx _ IHcs]; [reflexivity|].
    rewrite find_app, <- Hx. destruct (findEntry id x); [reflexivity|exact IHcs].
Qed.

Lemma findFile_preorder (l : list FileEntry) (id : string) :
  findFile l id = find (fun g => file_id g =? id) (allEntries l).
Proof.
  unfold allEntries. induction l as [|f l IH]; simpl; [reflexivity|].
  rewrite find_app, <- findEntry_preorder. now rewrite IH.
Qed.

(** X4.  The lookup by id returns the first entry, in depth-first order
    with a folder before its children, whose id is the one asked for: what
    it returns has that id and is an entry of the tree, and it returns
    nothing only when no entry of the tree, at any depth, has the id. *)
Theorem findFile_first_in_preorder (l : list FileEntry) (id : string) :
  findFile l id = find (fun g => file_id g =? id) (allEntries l)
  /\ (forall f, findFile l id = Some f -> file_id f = id /\ In f (allEntries l))
  /\ (findFile l id = None <-> forall f, In f (allEntries l) -> file_id f <> id).
Proof.
  rewrite findFile_preorder. split; [reflexivity|]. split.
  - intros f H. apply find_some in H as [Hin E]. apply String.eqb_eq in E. auto.
  - split.
    + intros H f Hin. apply String.eqb_neq. exact (find_none _ _ H f Hin).
    + intros H. apply find_nowhere. intros f Hin. apply String.eqb_neq. auto.
Qed.

Lemma findFile_sound (l : list FileEntry) (id : string) (f : FileEntry) :
  findFile l id = Some f -> file_id f = id.
Proof.
  rewrite findFile_preorder. intros H. apply find_some in H as [_ E].
  now apply String.eqb_eq.
Qed.

(** X5.  With the explorer shown, a click on an entry of the tree selects
    it only when it is a file: a click on a folder changes nothing.  After a
    click on a file, the current file id is that of the entry, and the lookup
    of the current file returns the entry clicked, unless its id is the
    empty string, which reads as no selection. *)
Theorem select_file_then_lookup (a : App) (ps : list Parked) (id : string) (f : FileEntry) :
  activeSidebarTab (state a) = explorer ->
  findFile (files (state a)) id = Some f ->
  exists a',
    step (mkSys a ps) (ClickFile id) = Some (mkSys a' ps)
    /\ (type f = folder -> a' = a)
    /\ (type f = file ->
        a' = on_state (with_currentFileId (Some id)) a
        /\ (id <> "" -> activeFile a' = Some f)
        /\ (id = "" -> activeFile a' = None)).
Proof.
  intros Htab Hfind. pose proof (findFile_sound _ _ _ Hfind) as Hid.
  unfold step, handler. simpl live. rewrite Hfind, Htab. simpl guard.
  destruct (type f) eqn:Et.
  - rewrite Hid. eexists. split; [simpl; now rewrite app_nil_r|].
    split; [discriminate|]. intros _. split; [reflexivity|].
    unfold activeFile. simpl. split.
    + intros Hne. destruct (Js.truthy id) eqn:E; [exact Hfind|].
      apply truthy_false in E. contradiction.
    + intros ->. reflexivity.
  - exists a. split; [simpl; now rewrite app_nil_r|].
    split; [reflexivity|discriminate].
Qed.

Lemma select_file_then_lookup_witness :
  exists a' f,
    step (mkSys (initialApp 0) []) (ClickFile "6") = Some (mkSys a' [])
    /\ activeFile a' = Some f /\ file_name f = "main.yml".
Proof.
  destruct (select_file_then_lookup (initialApp 0) [] "6"
              (mkFileEntry "6" "main.yml" file (Some "yaml")
                 (Some ("name: CI" ++ Js.nl ++ "on: [push]" ++ Js.nl ++ "jobs:" ++ Js.nl
                        ++ "  build:" ++ Js.nl ++ "    runs-on: ubuntu-latest" ++ Js.nl
                        ++ "    steps:" ++ Js.nl ++ "      - uses: actions/checkout@v2"
                        ++ Js.nl ++ "      - name: Run Tests" ++ Js.nl
                        ++ "        run: npm test")) None)
              eq_refl eq_refl) as [a' [Hs [_ Hf]]].
  destruct (Hf eq_refl) as [_ [Hlook _]].
  eexists a', _. split; [exact Hs|]. split; [apply Hlook; discriminate|reflexivity].
Defined.

(** ** More of the command interpreter *)

Lemma clearActive_forgets_log (lines : list string) (a : App) :
  on_state clearActive (logged (activeTerminalId (state a)) lines a)
  = on_state clearActive a.
Proof.
  unfold logged, on_state, clearActive, with_terminals, appendLogs. simpl. do 2 f_equal.
  rewrite map_map. apply map_ext. intros t.
  destruct (term_id t =? activeTerminalId (state a)) eqn:E; simpl; now rewrite E.
Qed.

(** X6.  A dispatch of [clear] appends the prompt echo to the session that
    is active in the dispatching render and then empties the log of the
    session that is active in the live hooks.  When both are the same
    session, the echo is wiped with the rest: the result is that of clearing
    alone, the active session is left with an empty log, and the input
    buffer and the suggestion are reset. *)
Theorem clear_wipes_active_log (st : App) (cmd : string) (a : App) :
  Js.toLowerCase (Js.trim cmd) = "clear" ->
  exec (handleCommand st cmd) a
  = Some (promptReset (on_state clearActive
            (logged (activeTerminalId (state st)) ["soluf-th@dev:~$ " ++ cmd] a)), [])
  /\ (activeTerminalId (state st) = activeTerminalId (state a) ->
      exec (handleCommand st cmd) a = Some (promptReset (on_state clearActive a), []))
  /\ logsOf (activeTerminalId (state a)) (promptReset (on_state clearActive a)) = []
  /\ termIds (state (on_state clearActive a)) = termIds (state a).
Proof.
  intros H.
  assert (E : exec (handleCommand st cmd) a
              = Some (promptReset (on_state clearActive
                        (logged (activeTerminalId (state st)) ["soluf-th@dev:~$ " ++ cmd] a)),
                      [])).
  { unfold handleCommand, handleCommand_with. rewrite H. reflexivity. }
  split; [exact E|]. split; [|split].
  - intros Hsame. rewrite E, Hsame, clearActive_forgets_log. reflexivity.
  - unfold logsOf, terminalById. simpl.
    rewrite find_map_hit by reflexivity.
    now destruct (find _ (terminals (state a))).
  - unfold termIds. simpl. rewrite map_map. apply map_ext. intros t.
    now destruct (term_id t =? activeTerminalId (state a)).
Qed.

Lemma clear_wipes_active_log_witness :
  exec (handleCommand (initialApp 0) " Clear") (initialApp 0)
  = Some (promptReset (on_state clearActive (initialApp 0)), [])
  /\ logsOf "term-1" (promptReset (on_state clearActive (initialApp 0))) = [].
Proof.
  destruct (clear_wipes_active_log (initialApp 0) " Clear" (initialApp 0) eq_refl)
    as [_ [Hsame [Hlogs _]]].
  split; [apply Hsame; reflexivity|exact Hlogs].
Defined.

(** X7.  A line whose trimmed, lower-cased form is not empty, is none of
    the seven command words and does not start with [theme ] is answered,
    after the prompt echo, by [Command not found: ] followed by that
    trimmed, lower-cased form; the input buffer and the suggestion are reset
    and nothing else changes.  This holds whatever the engine's [trim] and
    [toLowerCase] compute. *)
Theorem unknown_command_reported (trim toLowerCase : string -> string)
    (st : App) (cmd : string) (a : App) :
  let clean := toLowerCase (trim cmd) in
  let answer := ["soluf-th@dev:~$ " ++ cmd; "Command not found: " ++ clean] in
  clean <> "" ->
  ~ In clean ["clear"; "ls"; "help"; "whoami"; "audit"; "npm test"; "npm deploy"] ->
  Js.startsWith clean "theme " = false ->
  exists a',
    exec (handleCommand_with trim toLowerCase st cmd) a = Some (a', [])
    /\ terminals (state a')
       = appendLogs (activeTerminalId (state st)) answer (terminals (state a))
    /\ commandInput a' = ""
    /\ suggestion a' = ""
    /\ a' = promptReset (logged (activeTerminalId (state st)) answer a).
Proof.
  intros clean answer Hne Hnot Hth. unfold handleCommand_with. fold clean.
  assert (no : forall w, In w ["clear"; "ls"; "help"; "whoami"; "audit"; "npm test";
                               "npm deploy"] -> (clean =? w) = false).
  { intros w Hw. apply String.eqb_neq. intros E. apply Hnot. now rewrite E. }
  cbv zeta.
  rewrite (no "clear"), (no "ls"), (no "help"), (no "whoami"), (no "audit"),
    (no "npm test"), (no "npm deploy"), Hth by (simpl; tauto).
  apply String.eqb_neq in Hne. rewrite Hne. simpl negb. cbv iota.
  exists (promptReset (logged (activeTerminalId (state st)) answer a)).
  split; [run_exec|]. repeat split.
Qed.

Lemma unknown_command_reported_witness :
  exists a',
    exec (handleCommand (initialApp 0) " Theme ") (initialApp 0) = Some (a', [])
    /\ logsOf "term-1" a'
       = (logsOf "term-1" (initialApp 0)
          ++ ["soluf-th@dev:~$  Theme "; "Command not found: theme"])%list
    /\ commandInput a' = "".
Proof.
  destruct (unknown_command_reported Js.trim Js.toLowerCase (initialApp 0) " Theme "
              (initialApp 0)) as [a' [E [Hts [Hc _]]]].
  - discriminate.
  - simpl. intros H. repeat (destruct H as [H|H]; [discriminate H|]). destruct H.
  - reflexivity.
  - exists a'. split; [exact E|]. split; [|exact Hc].
    unfold logsOf, terminalById. rewrite Hts. reflexivity.
Defined.

(** ** Accepting a suggestion *)

Lemma suggest_extends_input (trim toLowerCase : string -> string) (val : string) :
  suggest_with trim toLowerCase val <> "" ->
  In (suggest_with trim toLowerCase val) COMMANDS
  /\ Js.startsWith (suggest_with trim toLowerCase val) (toLowerCase val) = true.
Proof.
  unfold suggest_with. destruct (Js.truthy (trim val)); [|congruence].
  destruct (find _ COMMANDS) as [c|] eqn:E; simpl; [|congruence].
  apply find_some in E as [Hin Hp]. rewrite (COMMANDS_truthy c Hin). auto.
Qed.

(** X8.  Typing [val] and then pressing Tab, each handled by the render
    of the hooks the other left, leaves the state of the project alone and
    the suggestion empty.  When [val] has a suggestion, the input buffer
    becomes the suggestion, whole: a vocabulary entry that starts with the
    lower-cased typed text.  When it has none, the buffer keeps the typed
    text.  This holds whatever the engine's [trim] and [toLowerCase]
    compute. *)
Theorem tab_accepts_suggestion (trim toLowerCase : string -> string)
    (a : App) (val : string) :
  let found := suggest_with trim toLowerCase val in
  exists a1 a',
    exec (onCommandChange_with trim toLowerCase val) a = Some (a1, [])
    /\ commandInput a1 = val
    /\ suggestion a1 = found
    /\ exec (handleCommandKeyDown_with trim toLowerCase a1 Tab) a1 = Some (a', [])
    /\ state a' = state a
    /\ suggestion a' = ""
    /\ commandInput a' = (if found =? "" then val else found)
    /\ (found <> "" ->
        In (commandInput a') COMMANDS
        /\ Js.startsWith (commandInput a') (toLowerCase val) = true).
Proof.
  intros found.
  exists (with_suggestion found (with_commandInput val a)).
  destruct (String.eqb_spec found "") as [E|Hne].
  - exists (with_suggestion found (with_commandInput val a)).
    split; [reflexivity|]. split; [reflexivity|]. split; [reflexivity|].
    split; [cbn [handleCommandKeyDown_with suggestion with_suggestion];
            rewrite E; reflexivity|].
    split; [reflexivity|]. split; [exact E|]. split; [reflexivity|].
    intros H. contradiction.
  - assert (Ht : Js.truthy found = true).
    { destruct (Js.truthy found) eqn:Et; [reflexivity|].
      apply truthy_false in Et. contradiction. }
    exists (with_suggestion "" (with_commandInput found
              (with_suggestion found (with_commandInput val a)))).
    split; [reflexivity|]. split; [reflexivity|]. split; [reflexivity|].
    split; [cbn [handleCommandKeyDown_with suggestion with_suggestion];
            rewrite Ht; reflexivity|].
    split; [reflexivity|]. split; [reflexivity|]. split; [reflexivity|].
    intros _. now apply suggest_extends_input.
Qed.

Lemma tab_accepts_suggestion_witness :
  exists c1 c2,
    run (boot 0) [CommandChange "TH"] = Some c1
    /\ suggestion (live c1) = "theme monokai"
    /\ run c1 [KeyDown Tab] = Some c2
    /\ commandInput (live c2) = "theme monokai"
    /\ suggestion (live c2) = "".
Proof.
  destruct (tab_accepts_suggestion Js.trim Js.toLowerCase (initialApp 0) "TH")
    as [a1 [a' [E1 [_ [Hs1 [E2 [_ [Hs [Hc _]]]]]]]]].
  exists (mkSys a1 []), (mkSys a' []).
  assert (R1 : run (boot 0) [CommandChange "TH"] = Some (mkSys a1 [])).
  { change (match exec (onCommandChange_with Js.trim Js.toLowerCase "TH") (initialApp 0) with
            | Some (a, ps) => Some (mkSys a ([] ++ ps))
            | None => None
            end = Some (mkSys a1 [])).
    rewrite E1. reflexivity. }
  assert (Hopen : isTerminalOpen (state a1) = true).
  { cbn in E1. injection E1 as <-. reflexivity. }
  assert (R2 : run (mkSys a1 []) [KeyDown Tab] = Some (mkSys a' [])).
  { cbn [run step handler live parked]. rewrite Hopen. cbn [guard].
    change (handleCommandKeyDown a1 Tab)
      with (handleCommandKeyDown_with Js.trim Js.toLowerCase a1 Tab).
    rewrite E2. reflexivity. }
  split; [exact R1|]. split; [exact Hs1|]. split; [exact R2|].
  split; [exact Hc|exact Hs].
Defined.

(** ** The audit and the chat *)

Lemma or_else_truthy (x : option string) (d : string) :
  d <> "" -> Js.or_else x d <> "".
Proof.
  intros Hd. unfold Js.or_else. destruct x as [v|]; [|assumption].
  destruct (Js.truthy v) eqn:E; [|assumption].
  intros ->. discriminate E.
Qed.

(** X9.  An audit is not started when no file is selected or the selected
    file has no text.  Otherwise, whatever the loading flag is, it raises
    the flag, logs the analysing line and calls the service with the text of
    the file and a language that is never empty ([text] when the file has
    none).  When the service answers, the answer is stored whatever it is;
    the completion line gives the number of its issues when that can be
    read, and the error line is logged when it cannot.  When the service
    fails, the error line is logged and the stored answer is left as it was.
    In every case the flag is lowered, and every line goes to the session
    that was active in the render that started the audit. *)
Theorem audit_lifecycle (st : App) :
  (activeFile st = None
   \/ (exists f, activeFile st = Some f /\ (content f = None \/ content f = Some "")) ->
   handleAnalyze st = Ret)
  /\ (forall f code,
        activeFile st = Some f -> content f = Some code -> code <> "" ->
        let target := activeTerminalId (state st) in
        let lang := Js.or_else (language f) "text" in
        let failure := "AI Error: Failed to analyze code." in
        exists k,
          (forall a,
             exists a',
               exec (handleAnalyze st) a = Some (a', [OnAnalyze code lang k])
               /\ isAiLoading a' = true
               /\ aiResponse a' = aiResponse a
               /\ terminals (state a')
                  = appendLogs target ["AI: Analyzing " ++ file_name f ++ "..."]
                      (terminals (state a))
               /\ a' = logged target ["AI: Analyzing " ++ file_name f ++ "..."]
                         (with_isAiLoading true a))
          /\ lang <> ""
          /\ (forall r n b,
                issuesLength r = Some n ->
                let complete := "AI: Analysis complete for " ++ file_name f
                                ++ ". Found " ++ n ++ " concerns." in
                exists b',
                  exec (k (Some r)) b = Some (b', [])
                  /\ aiResponse b' = Some r
                  /\ isAiLoading b' = false
                  /\ terminals (state b') = appendLogs target [complete] (terminals (state b))
                  /\ b' = with_isAiLoading false
                            (logged target [complete] (with_aiResponse (Some r) b)))
          /\ (forall r b,
                issuesLength r = None ->
                exists b',
                  exec (k (Some r)) b = Some (b', [])
                  /\ aiResponse b' = Some r
                  /\ isAiLoading b' = false
                  /\ terminals (state b') = appendLogs target [failure] (terminals (state b))
                  /\ b' = with_isAiLoading false
                            (logged target [failure] (with_aiResponse (Some r) b)))
          /\ (forall b,
                exists b',
                  exec (k None) b = Some (b', [])
                  /\ aiResponse b' = aiResponse b
                  /\ isAiLoading b' = false
                  /\ terminals (state b') = appendLogs target [failure] (terminals (state b))
                  /\ b' = with_isAiLoading false (logged target [failure] b))).
Proof.
  split.
  - unfold handleAnalyze. intros [H|[f [H [Hc|Hc]]]]; rewrite H; [reflexivity| |];
      rewrite Hc; reflexivity.
  - intros f code Hf Hc Hne target lang failure. unfold handleAnalyze. rewrite Hf, Hc.
    destruct (Js.truthy code) eqn:E; [|apply truthy_false in E; contradiction].
    simpl negb. cbv iota. eexists. split; [|split; [|split; [|split]]].
    + intros a. eexists. split; [reflexivity|]. repeat split.
    + apply or_else_truthy. discriminate.
    + intros r n b Hn. cbn beta iota. rewrite Hn.
      eexists. split; [reflexivity|]. repeat split.
    + intros r b Hn. cbn beta iota. rewrite Hn.
      eexists. split; [reflexivity|]. repeat split.
    + intros b. eexists. split; [reflexivity|]. repeat split.
Qed.

Lemma audit_lifecycle_witness :
  exists k code a' b1 b2 b3,
    exec (handleAnalyze (initialApp 0)) (initialApp 0)
    = Some (a', [OnAnalyze code "solidity" k])
    /\ isAiLoading (initialApp 0) = false
    /\ isAiLoading a' = true
    /\ logsOf "term-1" a'
       = (logsOf "term-1" (initialApp 0) ++ ["AI: Analyzing Storage.sol..."])%list
    /\ exec (k (Some (mkAuditResult "{}" None))) a' = Some (b1, [])
    /\ aiResponse b1 = Some (mkAuditResult "{}" None)
    /\ isAiLoading b1 = false
    /\ logsOf "term-1" b1
       = (logsOf "term-1" a' ++ ["AI Error: Failed to analyze code."])%list
    /\ exec (k (Some (mkAuditResult "{ }" (Some "2")))) a' = Some (b2, [])
    /\ aiResponse b2 = Some (mkAuditResult "{ }" (Some "2"))
    /\ logsOf "term-1" b2
       = (logsOf "term-1" a'
          ++ ["AI: Analysis complete for Storage.sol. Found 2 concerns."])%list
    /\ exec (k None) a' = Some (b3, [])
    /\ aiResponse b3 = None
    /\ isAiLoading b3 = false.
Proof.
  destruct (proj2 (audit_lifecycle (initialApp 0)) _ _ eq_refl eq_refl)
    as [k [Hstart [_ [Hcount [Hbad Hfail]]]]]; [discriminate|].
  destruct (Hstart (initialApp 0)) as [a' [E0 [Hl0 [_ [Hts0 Ha']]]]].
  destruct (Hbad (mkAuditResult "{}" None) a' eq_refl) as [b1 [E1 [Hr1 [Hl1 [Hts1 _]]]]].
  destruct (Hcount (mkAuditResult "{ }" (Some "2")) "2" a' eq_refl)
    as [b2 [E2 [Hr2 [_ [Hts2 _]]]]].
  destruct (Hfail a') as [b3 [E3 [Hr3 [Hl3 _]]]].
  exists k. eexists. exists a', b1, b2, b3.
  split; [exact E0|]. split; [reflexivity|]. split; [exact Hl0|].
  split; [unfold logsOf, terminalById; rewrite Hts0; reflexivity|].
  split; [exact E1|]. split; [exact Hr1|]. split; [exact Hl1|].
  split; [unfold logsOf, terminalById; rewrite Hts1, Ha'; reflexivity|].
  split; [exact E2|]. split; [exact Hr2|].
  split; [unfold logsOf, terminalById; rewrite Hts2, Ha'; reflexivity|].
  split; [exact E3|]. split; [rewrite Hr3, Ha'; reflexivity|exact Hl3].
Defined.

(** X10.  A chat message that trimming leaves empty is not sent.  Otherwise
    the message, as typed, is added to the transcript under the role
    [user], the chat field is cleared, the loading flag is raised and the
    service is called with the message and the text of the selected file
    (empty when there is none).  An answer is added to the transcript under
    the role [assistant]; a failure adds nothing to the transcript and logs
    its error line in the terminal session of the sending render.  In both
    cases the flag is lowered.  This holds whatever the engine's [trim]
    computes. *)
Theorem chat_lifecycle (trim : string -> string) (st : App) :
  (trim (chatInput st) = "" -> handleChat_with trim st = Ret)
  /\ (trim (chatInput st) <> "" ->
      let context :=
        Js.or_else (match activeFile st with Some f => content f | None => None end) "" in
      let failure := "AI Error: Failed to generate response." in
      exists k,
        (forall a,
           exists a',
             exec (handleChat_with trim st) a = Some (a', [OnChat (chatInput st) context k])
             /\ chatMessages a' = (chatMessages a ++ [mkChatMessage "user" (chatInput st)])%list
             /\ chatInput a' = "" /\ isAiLoading a' = true
             /\ state a' = state a /\ aiResponse a' = aiResponse a)
        /\ (forall r b,
              exists b',
                exec (k (Some r)) b = Some (b', [])
                /\ chatMessages b' = (chatMessages b ++ [mkChatMessage "assistant" r])%list
                /\ isAiLoading b' = false /\ state b' = state b)
        /\ (forall b,
              exists b',
                exec (k None) b = Some (b', [])
                /\ chatMessages b' = chatMessages b
                /\ isAiLoading b' = false
                /\ terminals (state b')
                   = appendLogs (activeTerminalId (state st)) [failure] (terminals (state b))
                /\ b' = with_isAiLoading false
                          (logged (activeTerminalId (state st)) [failure] b))).
Proof.
  split; [intros H; unfold handleChat_with; now rewrite H|intros H context failure].
  unfold handleChat_with.
  destruct (Js.truthy (trim (chatInput st))) eqn:E;
    [|apply truthy_false in E; contradiction].
  simpl negb. cbv iota. eexists. split; [|split].
  - intros a. eexists. split; [reflexivity|]. repeat split.
  - intros r b. eexists. split; [reflexivity|]. repeat split.
  - intros b. eexists. split; [reflexivity|]. repeat split.
Qed.

Lemma chat_lifecycle_witness :
  exists k context a' b',
    exec (handleChat asking) asking = Some (a', [OnChat " why? " context k])
    /\ chatMessages a' = [mkChatMessage "user" " why? "]
    /\ chatInput a' = ""
    /\ isAiLoading a' = true
    /\ exec (k None) a' = Some (b', [])
    /\ isAiLoading b' = false
    /\ logsOf "term-1" b'
       = (logsOf "term-1" asking ++ ["AI Error: Failed to generate response."])%list.
Proof.
  destruct (proj2 (chat_lifecycle Js.trim asking)) as [k [Hsend [_ Hfail]]]; [discriminate|].
  destruct (Hsend asking) as [a' [Hex [Hmsgs [Hin [Hl [Hst _]]]]]].
  destruct (Hfail a') as [b' [E [_ [Hl' [Hts _]]]]].
  exists k. eexists. exists a', b'.
  split; [exact Hex|]. split; [exact Hmsgs|]. split; [exact Hin|]. split; [exact Hl|].
  split; [exact E|]. split; [exact Hl'|].
  unfold logsOf, terminalById. rewrite Hts, Hst. reflexivity.
Defined.

(** ** More of the terminal session manager *)





(** ** More of the workflow run simulator *)

Lemma logged_absent (target : string) (lines : list string) (b : App) :
  ~ In target (termIds (state b)) -> logged target lines b = b.
Proof.
  intros Habsent. apply on_state_same, with_terminals_same, map_same.
  intros t Hin. destruct (String.eqb_spec (term_id t) target) as [E|]; [|reflexivity].
  exfalso. apply Habsent. rewrite <- E. unfold termIds. now apply in_map.
Qed.

(** X13.  Closing the session from which a workflow was started does not
    stop the run: at each of its turns, when no session has the id that was
    active in the triggering render, the line of the turn is appended
    nowhere and every hook is left as it was, and the last turn still sets
    the workflow to success. *)
Theorem workflow_survives_closed_terminal
    (st : App) (workflowId : string) (wf : WorkflowRun) :
  workflowById workflowId (state st) = Some wf -> status wf <> running ->
  exists k1 k2 k3 k4,
    (forall a, exists a1, exec (runWorkflow st workflowId) a = Some (a1, [OnTimer 800 k1]))
    /\ (forall b,
          ~ In (activeTerminalId (state st)) (termIds (state b)) ->
          exec k1 b = Some (b, [OnTimer 800 k2])
          /\ exec k2 b = Some (b, [OnTimer 800 k3])
          /\ exec k3 b = Some (b, [OnTimer 800 k4]))
    /\ (forall b, exec k4 b = Some (on_state (markSuccess workflowId) b, [])).
Proof.
  intros Hwf Hs. rewrite (runWorkflow_accepted st workflowId wf Hwf Hs).
  set (name := workflowName wf).
  set (k := setState (markSuccess workflowId) ;; Ret).
  exists (forEachStep st ["[" ++ name ++ "] Checking out code...";
                          "[" ++ name ++ "] Deployment success!";
                          "[" ++ name ++ "] Job finished."] k).
  exists (forEachStep st ["[" ++ name ++ "] Deployment success!";
                          "[" ++ name ++ "] Job finished."] k).
  exists (forEachStep st ["[" ++ name ++ "] Job finished."] k).
  exists k.
  split; [|split].
  - intros a. eexists. reflexivity.
  - intros b Habsent. rewrite !forEachStep_exec.
    rewrite !(logged_absent _ _ b Habsent). repeat split.
  - intros b. reflexivity.
Qed.

Lemma workflow_survives_closed_terminal_witness :
  exists k1 k2 k3 k4,
    (forall a, exists a1,
        exec (runWorkflow (initialApp 0) "wf2") a = Some (a1, [OnTimer 800 k1]))
    /\ (forall b,
          ~ In "term-1" (termIds (state b)) ->
          exec k1 b = Some (b, [OnTimer 800 k2])
          /\ exec k2 b = Some (b, [OnTimer 800 k3])
          /\ exec k3 b = Some (b, [OnTimer 800 k4]))
    /\ (forall b, exec k4 b = Some (on_state (markSuccess "wf2") b, [])).
Proof.
  apply (workflow_survives_closed_terminal (initialApp 0) "wf2"
           (mkWorkflowRun "wf2" "CD Deployment" idle [])).
  - reflexivity.
  - discriminate.
Defined.

Lemma run_button_enabled_any (a : App) (workflowId : string) (wf : WorkflowRun) :
  workflowById workflowId (state a) = Some wf -> status wf <> running ->
  existsb (fun w => (wf_id w =? workflowId)
                    && negb (WorkflowStatus_eqb (status w) running))
          (workflows (state a)) = true.
Proof.
  intros Hwf Hs. apply find_some in Hwf as [Hin Hid].
  apply existsb_exists. exists wf. split; [assumption|].
  rewrite Hid. now destruct (status wf).
Qed.

(** X14.  Any workflow that is not running can be run, again if it already
    succeeded: with the actions tab shown, the click and four expiries of its
    timer leave it succeeded with an empty log of its own, whatever that log
    held before, with the terminal panel shown, nothing of it suspended, the
    number of workflows unchanged and every workflow with another id as it
    was. *)
Theorem rerun_discards_workflow_log (c : Sys) (workflowId : string) (wf : WorkflowRun) :
  workflowById workflowId (state (live c)) = Some wf -> status wf <> running ->
  activeSidebarTab (state (live c)) = actions ->
  let n := length (parked c) in
  exists c5,
    run c [ClickRunWorkflow workflowId; Wake n Timeout; Wake n Timeout;
           Wake n Timeout; Wake n Timeout] = Some c5
    /\ workflowById workflowId (state (live c5))
       = Some (mkWorkflowRun (wf_id wf) (workflowName wf) success [])
    /\ isTerminalOpen (state (live c5)) = true
    /\ parked c5 = parked c
    /\ length (workflows (state (live c5))) = length (workflows (state (live c)))
    /\ (forall w, In w (workflows (state (live c))) -> wf_id w <> workflowId ->
                  In w (workflows (state (live c5)))).
Proof.
  destruct c as [a l]. simpl live. simpl parked. intros Hwf Hs Htab n.
  set (target := activeTerminalId (state a)).
  set (name := workflowName wf).
  set (k := setState (markSuccess workflowId) ;; Ret).
  set (l0 := "[" ++ name ++ "] Starting runner...").
  set (l1 := "[" ++ name ++ "] Checking out code...").
  set (l2 := "[" ++ name ++ "] Deployment success!").
  set (l3 := "[" ++ name ++ "] Job finished.").
  set (a1 := logged target [l0] (on_state (markRunning workflowId) a)).
  set (a2 := logged target [l1] a1).
  set (a3 := logged target [l2] a2).
  set (a4 := logged target [l3] a3).
  assert (S0 : step (mkSys a l) (ClickRunWorkflow workflowId)
               = Some (mkSys a1 (l ++ [OnTimer 800 (forEachStep a [l1; l2; l3] k)]))).
  { unfold step, handler, guard. simpl live. simpl parked.
    rewrite Htab, (run_button_enabled_any a workflowId wf Hwf Hs). simpl andb. cbv iota.
    rewrite (runWorkflow_accepted a workflowId wf Hwf Hs). reflexivity. }
  assert (S1 : step (mkSys a1 (l ++ [OnTimer 800 (forEachStep a [l1; l2; l3] k)]))
                 (Wake n Timeout)
               = Some (mkSys a2 (l ++ [OnTimer 800 (forEachStep a [l2; l3] k)])))
    by (apply step_wake_last; reflexivity).
  assert (S2 : step (mkSys a2 (l ++ [OnTimer 800 (forEachStep a [l2; l3] k)]))
                 (Wake n Timeout)
               = Some (mkSys a3 (l ++ [OnTimer 800 (forEachStep a [l3] k)])))
    by (apply step_wake_last; reflexivity).
  assert (S3 : step (mkSys a3 (l ++ [OnTimer 800 (forEachStep a [l3] k)])) (Wake n Timeout)
               = Some (mkSys a4 (l ++ [OnTimer 800 k])))
    by (apply step_wake_last; reflexivity).
  assert (S4 : step (mkSys a4 (l ++ [OnTimer 800 k])) (Wake n Timeout)
               = Some (mkSys (on_state (markSuccess workflowId) a4) (l ++ [])))
    by (apply step_wake_last; reflexivity).
  cbn [run]. rewrite S0, S1, S2, S3, S4. eexists. split; [reflexivity|].
  cbn [live parked]. split; [|split; [reflexivity|split; [apply app_nil_r|split]]].
  - unfold workflowById. simpl workflows.
    unfold workflowById in Hwf.
    rewrite !find_map_mark by reflexivity. rewrite Hwf. reflexivity.
  - simpl. now rewrite !length_map.
  - intros w Hin Hne. simpl. apply String.eqb_neq in Hne.
    apply in_map_iff. exists w. split; [now rewrite Hne|].
    apply in_map_iff. exists w. split; [now rewrite Hne|assumption].
Qed.

Lemma rerun_discards_workflow_log_witness :
  exists c0 c5,
    run (boot 0) [ClickSidebarTab actions] = Some c0
    /\ option_map wf_logs (workflowById "wf1" (state (live c0)))
       = Some ["Build started"; "npm install successful"; "Tests passed"; "Build finished"]
    /\ run c0 [ClickRunWorkflow "wf1"; Wake 0 Timeout; Wake 0 Timeout;
               Wake 0 Timeout; Wake 0 Timeout] = Some c5
    /\ workflowById "wf1" (state (live c5))
       = Some (mkWorkflowRun "wf1" "CI Pipeline" success []).
Proof.
  exists (mkSys (on_state (with_activeSidebarTab actions) (initialApp 0)) []).
  destruct (rerun_discards_workflow_log
              (mkSys (on_state (with_activeSidebarTab actions) (initialApp 0)) [])
              "wf1"
              (mkWorkflowRun "wf1" "CI Pipeline" success
                 ["Build started"; "npm install successful"; "Tests passed";
                  "Build finished"]))
    as [c5 [Hrun [Hwf _]]]; [reflexivity|discriminate|reflexivity|].
  exists c5. repeat split; assumption.
Defined.

(** ** What the command interpreter leaves alone *)

Lemma termIds_appendLogs (target : string) (lines : list string) (ts : list TerminalInstance) :
  map term_id (appendLogs target lines ts) = map term_id ts.
Proof.
  unfold appendLogs. rewrite map_map. apply map_ext. intros t.
  now destruct (term_id t =? target).
Qed.

Lemma untouched_addLog (st : App) (msg : string) (termId : option string) (a a' : App) :
  addLog st msg termId a = Some a' -> untouched a' = untouched a.
Proof.
  intros E. injection E as <-. unfold untouched, termIds. simpl. f_equal.
  rewrite map_map. apply map_ext. intros t. now destruct (term_id t =? _).
Qed.

Lemma untouched_clearActive (a : App) : untouched (on_state clearActive a) = untouched a.
Proof.
  unfold untouched, termIds. simpl. f_equal.
  rewrite map_map. apply map_ext. intros t. now destruct (term_id t =? _).
Qed.

Ltac keeps_untouched :=
  let a := fresh "a" in
  let a' := fresh "a'" in
  let HI := fresh "HI" in
  let E := fresh "E" in
  intros a a' HI E; rewrite <- HI;
  first [ exact (untouched_addLog _ _ _ _ _ E)
        | injection E as <-; first [reflexivity | apply untouched_clearActive] ].

Ltac keeps_all :=
  repeat match goal with
  | |- Keeps _ Ret => apply Keeps_Ret
  | |- Keeps _ (Sleep _ _) => apply Keeps_Sleep
  | |- Keeps _ (Fork _ _) => apply Keeps_Fork
  | |- Keeps _ (AwaitAnalyze _ _ _) => apply Keeps_AwaitAnalyze; intros [?|]
  | |- Keeps _ (AwaitChat _ _ _) => apply Keeps_AwaitChat; intros [?|]
  | |- Keeps _ (Update _ _) => apply Keeps_Update; [keeps_untouched|]
  | |- Keeps _ (if ?b then _ else _) => destruct b
  | |- Keeps _ (match ?x with _ => _ end) => destruct x
  end.

Lemma forEachStep_untouched (U : Untouched) (st : App) (l : list string) (k : Proc) :
  Keeps (fun b => untouched b = U) k ->
  Keeps (fun b => untouched b = U) (forEachStep st l k).
Proof. intros Hk. induction l; simpl; keeps_all; assumption. Qed.

Lemma handleCommand_untouched (U : Untouched) (st : App) (cmd : string) :
  Keeps (fun b => untouched b = U) (handleCommand st cmd).
Proof.
  unfold handleCommand, handleCommand_with, handleAnalyze, runWorkflow. cbv zeta.
  apply Keeps_Update; [keeps_untouched|].
  repeat match goal with
  | |- Keeps _ (forEachStep _ _ _) => apply forEachStep_untouched
  | |- Keeps _ Ret => apply Keeps_Ret
  | |- Keeps _ (Sleep _ _) => apply Keeps_Sleep
  | |- Keeps _ (Fork _ _) => apply Keeps_Fork
  | |- Keeps _ (AwaitAnalyze _ _ _) => apply Keeps_AwaitAnalyze; intros [?|]
  | |- Keeps _ (Update _ _) => apply Keeps_Update; [keeps_untouched|]
  | |- Keeps _ (if ?b then _ else _) => destruct b
  | |- Keeps _ (match ?x with _ => _ end) => destruct x
  end.
Qed.

Lemma handleCommand_runs (st : App) (cmd : string) (a : App) :
  exists a' ps, exec (handleCommand st cmd) a = Some (a', ps).
Proof.
  unfold handleCommand, handleCommand_with, handleAnalyze, runWorkflow. cbv zeta.
  repeat match goal with
  | |- context [if ?b then _ else _] => destruct b
  | |- context [match ?x with _ => _ end] => destruct x
  end; simpl; eauto.
Qed.

(** X15.  No line typed at the prompt throws, and none, neither at once
    nor in what it leaves suspended, whenever that resumes, changes the task
    list, the file tree or its selection, the chat transcript and field,
    the task field, the editor and sidebar choices, which sessions exist or
    which one is active. *)
Theorem commands_leave_the_rest_alone (st : App) (cmd : string) :
  (forall U, Keeps (fun b => untouched b = U) (handleCommand st cmd))
  /\ (forall a,
        exists a' ps,
          exec (handleCommand st cmd) a = Some (a', ps)
          /\ untouched a' = untouched a
          /\ Forall (KeepsParked (fun b => untouched b = untouched a)) ps).
Proof.
  split; [intros U; apply handleCommand_untouched|].
  intros a. destruct (handleCommand_runs st cmd a) as [a' [ps E]].
  exists a', ps. split; [exact E|].
  exact (exec_keeps _ _ (handleCommand_untouched (untouched a) st cmd) a a' ps eq_refl E).
Qed.

(** ** Session ids come from the clock alone *)

Lemma filter_split_length {A : Type} (p : A -> bool) (l : list A) :
  length (filter p l) + length (filter (fun x => negb (p x)) l) = length l.
Proof.
  induction l as [|x l IH]; simpl; [reflexivity|].
  destruct (p x); simpl; lia.
Qed.

Lemma filter_hit_length (id : string) (ts : list TerminalInstance) :
  In id (map term_id ts) -> 1 <= length (filter (fun t => id =? term_id t) ts).
Proof.
  induction ts as [|t ts IH]; simpl; [contradiction|].
  intros [E|Hin].
  - rewrite E, String.eqb_refl. simpl. lia.
  - destruct (id =? term_id t); simpl; [lia|auto].
Qed.

(** X16.  The id of a new session is [term-] followed by the clock
    reading and nothing else.  When a session with that id is already
    shown, the creation succeeds all the same and leaves two sessions under
    one id: they are not told apart, at least two tabs are rendered active,
    a close of the id removes at least two sessions, and when every session
    shown has the id the close throws. *)
Theorem same_clock_reading_duplicates_session (a : App) (now : Z) :
  let newId := "term-" ++ Js.show_int now in
  In newId (termIds (state a)) ->
  exists a',
    exec (createNewTerminal now) a = Some (a', [])
    /\ 2 <= length (activeSessions (state a'))
    /\ ~ NoDup (termIds (state a'))
    /\ (forall a'', exec (closeTerminal a' newId) a' = Some (a'', []) ->
                    length (terminals (state a'')) + 2 <= length (terminals (state a')))
    /\ ((forall t, In t (terminals (state a)) -> term_id t = newId) ->
        exec (closeTerminal a' newId) a' = None).
Proof.
  intros newId Hin. unfold termIds in Hin.
  set (new := mkTerminalInstance newId "bash" ["Terminal created."]).
  set (ts := terminals (state a)) in *.
  eexists. split; [apply createNewTerminal_exec|]. fold newId. fold new.
  cbn [state on_state terminals with_terminals with_activeTerminalId activeTerminalId].
  fold ts.
  assert (Hhits : 2 <= length (filter (fun t => newId =? term_id t) (ts ++ [new]))).
  { rewrite filter_app, length_app. cbn [filter]. change (term_id new) with newId.
    rewrite String.eqb_refl. cbn [length].
    pose proof (filter_hit_length newId ts Hin). lia. }
  assert (Hlen : (length (ts ++ [new]) <=? 1)%nat = false).
  { apply Nat.leb_gt. rewrite length_app. simpl.
    destruct ts; [contradiction|simpl; lia]. }
  split; [|split; [|split]].
  - unfold activeSessions. simpl. exact Hhits.
  - unfold termIds. simpl. rewrite map_app. simpl. intros Hnd.
    apply NoDup_remove_2 in Hnd. apply Hnd. now rewrite app_nil_r.
  - intros a'' E. rewrite closeTerminal_exec in E.
    cbn [state on_state terminals with_terminals with_activeTerminalId activeTerminalId] in E.
    fold ts in E. rewrite Hlen in E. cbv zeta in E. rewrite String.eqb_refl in E.
    pose proof (filter_split_length (fun t => newId =? term_id t) (ts ++ [new])) as Hsum.
    assert (Hsame : filter (fun t => negb (term_id t =? newId)) (ts ++ [new])
                    = filter (fun t => negb (newId =? term_id t)) (ts ++ [new])).
    { apply filter_ext. intros t. now rewrite String.eqb_sym. }
    rewrite Hsame in E.
    destruct (filter (fun t => negb (newId =? term_id t)) (ts ++ [new])) as [|f r] eqn:Ef;
      [discriminate|].
    injection E as <-.
    cbn [state on_state terminals with_terminals with_activeTerminalId].
    fold ts. lia.
  - intros Hall. rewrite closeTerminal_exec.
    cbn [state on_state terminals with_terminals with_activeTerminalId activeTerminalId].
    fold ts. rewrite Hlen. cbv zeta. rewrite String.eqb_refl.
    replace (filter (fun t => negb (term_id t =? newId)) (ts ++ [new])) with
      (@nil TerminalInstance); [reflexivity|].
    symmetry.
    clear Hhits Hlen. rewrite filter_app. simpl. rewrite String.eqb_refl. simpl.
    rewrite app_nil_r. induction ts as [|t ts IH]; [reflexivity|].
    simpl. rewrite (Hall t) by now left. rewrite String.eqb_refl. simpl.
    destruct (in_dec string_dec newId (map term_id ts)) as [Hin'|Hout].
    + apply IH; [exact Hin'|]. intros u Hu. apply Hall. now right.
    + destruct ts as [|u ts']; [reflexivity|]. exfalso. apply Hout. left.
      apply Hall. right. now left.
Qed.

Lemma same_clock_reading_duplicates_session_witness :
  exists a a',
    runOps (initialApp 0) [Create 5] = Some a
    /\ exec (createNewTerminal 5) a = Some (a', [])
    /\ 2 <= length (activeSessions (state a'))
    /\ ~ NoDup (termIds (state a')).
Proof.
  eexists. 
  destruct (same_clock_reading_duplicates_session
              (on_state (fun s => with_activeTerminalId "term-5"
                          (with_terminals
                             (terminals s
                              ++ [mkTerminalInstance "term-5" "bash" ["Terminal created."]])%list
                             s)) (initialApp 0)) 5%Z)
    as [a' [Hex [Hact [Hdup _]]]].
  - simpl. right. right. now left.
  - exists a'. split; [reflexivity|]. split; [exact Hex|]. split; assumption.
Defined.

(** ** One active session while ids are fresh *)

Lemma sessionsOk_of_untouched (a a' : App) :
  untouched a' = untouched a -> sessionsShown a -> sessionsShown a'.
Proof.
  intros E H. unfold sessionsShown, sessionsOk.
  change (termIds (state a')) with (u_termIds (untouched a')).
  change (activeTerminalId (state a')) with (u_activeTerminalId (untouched a')).
  rewrite E. exact H.
Qed.

Lemma untouched_keeps_sessions (p : Proc) :
  (forall U, Keeps (fun b => untouched b = U) p) -> Keeps sessionsShown p.
Proof.
  induction p as [|u k IH|ms k IH|code lang k IH|message context k IH|child IHc k IHk];
    intros H.
  - constructor.
  - constructor.
    + intros a a' Ha E. specialize (H (untouched a)).
      inversion H as [|u0 k0 Hu Hk| | | |]; subst.
      exact (sessionsOk_of_untouched a a' (Hu a a' eq_refl E) Ha).
    + apply IH. intros U. specialize (H U). now inversion H.
  - constructor. apply IH. intros U. specialize (H U). now inversion H.
  - constructor. intros r. apply IH. intros U. specialize (H U).
    inversion H as [| | |c0 l0 k0 Hk| |]; subst. apply Hk.
  - constructor. intros r. apply IH. intros U. specialize (H U).
    inversion H as [| | | |m0 c0 k0 Hk|]; subst. apply Hk.
  - constructor.
    + apply IHc. intros U. specialize (H U). now inversion H.
    + apply IHk. intros U. specialize (H U). now inversion H.
Qed.

Ltac keeps_sessions_upd :=
  let a := fresh "a" in
  let a' := fresh "a'" in
  let HI := fresh "HI" in
  let E := fresh "E" in
  intros a a' HI E;
  first [ exact (sessionsOk_of_untouched _ _ (untouched_addLog _ _ _ _ _ E) HI)
        | injection E as <-; exact HI ].

Ltac keeps_sessions :=
  repeat match goal with
  | |- Keeps _ Ret => apply Keeps_Ret
  | |- Keeps _ (Sleep _ _) => apply Keeps_Sleep
  | |- Keeps _ (Fork _ _) => apply Keeps_Fork
  | |- Keeps _ (AwaitAnalyze _ _ _) => apply Keeps_AwaitAnalyze; intros [?|]
  | |- Keeps _ (AwaitChat _ _ _) => apply Keeps_AwaitChat; intros [?|]
  | |- Keeps _ (Update _ _) => apply Keeps_Update; [keeps_sessions_upd|]
  | |- Keeps _ (if ?b then _ else _) => destruct b
  | |- Keeps _ (match ?x with _ => _ end) => destruct x
  end.

Lemma forEachStep_sessions (st : App) (l : list string) (k : Proc) :
  Keeps sessionsShown k -> Keeps sessionsShown (forEachStep st l k).
Proof. intros Hk. induction l; simpl; keeps_sessions; assumption. Qed.

Lemma runWorkflow_sessions (st : App) (workflowId : string) :
  Keeps sessionsShown (runWorkflow st workflowId).
Proof. unfold runWorkflow. keeps_sessions. apply forEachStep_sessions. keeps_sessions. Qed.

(** A user event, run on the render of the live hooks. *)
Lemma user_event_sessions (a a' : App) (e : Event) (p : Proc) (ps : list Parked) :
  sessionsShown a ->
  match e with
  | ClickNewTerminal now => ~ In ("term-" ++ Js.show_int now) (termIds (state a))
  | _ => True
  end ->
  handler a e = Some p -> exec p a = Some (a', ps) ->
  sessionsShown a' /\ Forall (KeepsParked sessionsShown) ps.
Proof.
  intros Ha Hfresh Hh Ex.
  assert (generic : Keeps sessionsShown p ->
            sessionsShown a' /\ Forall (KeepsParked sessionsShown) ps).
  { intros Hk. exact (exec_keeps sessionsShown p Hk a a' ps Ha Ex). }
  destruct e; simpl in Hh; unfold guard in Hh;
    repeat match type of Hh with
    | context [match findFile ?l ?i with _ => _ end] => destruct (findFile l i)
    | (if ?b then _ else _) = _ => destruct b eqn:Hg
    end;
    try discriminate; injection Hh as <-.
  - apply generic. destruct key; simpl; [|keeps_sessions|keeps_sessions].
    apply untouched_keeps_sessions. intros U. apply handleCommand_untouched.
  - apply generic. unfold onCommandChange, onCommandChange_with. keeps_sessions.
  - apply generic. apply runWorkflow_sessions.
  - apply generic. unfold addTask, addTask_with. keeps_sessions.
  - apply generic. keeps_sessions.
  - apply generic. unfold toggleTask. keeps_sessions.
  - apply generic. unfold deleteTask. keeps_sessions.
  - clear generic. split.
    + exact (sessionsOk_create now a a' ps Ha Hfresh Ex).
    + rewrite createNewTerminal_exec in Ex. injection Ex as _ <-. constructor.
  - clear generic. destruct (sessionsOk_close a id Ha) as [a1 [E1 Hok]].
    rewrite E1 in Ex. injection Ex as <- <-. split; [exact Hok|constructor].
  - clear generic. simpl in Ex. injection Ex as <- <-. split; [|constructor].
    apply andb_prop in Hg as [_ Hex]. now apply sessionsOk_switch.
  - apply generic. destruct (type _); keeps_sessions.
  - apply generic. keeps_sessions.
  - apply generic. keeps_sessions.
  - apply generic. keeps_sessions.
  - apply generic. keeps_sessions.
  - apply generic. keeps_sessions.
  - apply generic. keeps_sessions.
  - apply generic. unfold handleAnalyze. keeps_sessions.
  - apply generic. unfold handleChat, handleChat_with. keeps_sessions.
  - apply generic. keeps_sessions.
Qed.

Lemma step_sessions (c c' : Sys) (e : Event) :
  sessionsShown (live c) /\ Forall (KeepsParked sessionsShown) (parked c) ->
  match e with
  | ClickNewTerminal now => ~ In ("term-" ++ Js.show_int now) (termIds (state (live c)))
  | _ => True
  end ->
  step c e = Some c' ->
  sessionsShown (live c') /\ Forall (KeepsParked sessionsShown) (parked c').
Proof.
  intros [Hl Hp] Hfresh E.
  assert (user : forall p, handler (live c) e = Some p ->
            match exec p (live c) with
            | Some (a, ps) => Some (mkSys a (parked c ++ ps))
            | None => None
            end = Some c' ->
            sessionsShown (live c') /\ Forall (KeepsParked sessionsShown) (parked c')).
  { intros p Hh Hx. destruct (exec p (live c)) as [[a ps]|] eqn:Ex; [|discriminate].
    injection Hx as <-.
    destruct (user_event_sessions _ _ _ _ _ Hl Hfresh Hh Ex) as [Ha Hps].
    split; simpl; [assumption|]. apply Forall_app. auto. }
  unfold step in E. revert user. clear Hfresh. destruct e; intros user;
    try (destruct (handler (live c) _) as [p|] eqn:Hh in E; [|discriminate];
         exact (user p Hh E)).
  clear user.
  destruct (nth_error (parked c) i) as [q|] eqn:En; [|discriminate].
  destruct (resume q w) as [k|] eqn:Er; [|discriminate].
  destruct (exec k (live c)) as [[a ps]|] eqn:Ex; [|discriminate].
  injection E as <-.
  assert (Hk : Keeps sessionsShown k).
  { apply nth_error_In in En. rewrite Forall_forall in Hp. specialize (Hp q En).
    destruct q, w; simpl in Er; try discriminate; injection Er as <-;
      simpl in Hp; auto. }
  destruct (exec_keeps sessionsShown k Hk _ _ _ Hl Ex) as [Ha Hps].
  split; simpl; [assumption|]. apply Forall_app. split; [|assumption].
  now apply Forall_remove_nth.
Qed.

Lemma run_sessions (es : list Event) :
  forall c c',
    sessionsShown (live c) /\ Forall (KeepsParked sessionsShown) (parked c) ->
    freshClicks c es ->
    run c es = Some c' ->
    sessionsShown (live c') /\ Forall (KeepsParked sessionsShown) (parked c').
Proof.
  induction es as [|e es IH]; simpl; intros c c' Hc Hfresh E.
  - injection E as <-. assumption.
  - destruct Hfresh as [Hnew Hrest].
    destruct (step c e) as [c1|] eqn:Es; [|discriminate].
    eapply IH; [|exact Hrest|exact E]. eapply step_sessions; eauto.
Qed.

Lemma find_of_single (id : string) (l : list TerminalInstance) (t : TerminalInstance) :
  filter (fun x => id =? term_id x) l = [t] ->
  find (fun x => term_id x =? id) l = Some t.
Proof.
  induction l as [|x l IH]; simpl; [discriminate|].
  rewrite (String.eqb_sym (term_id x) id).
  destruct (id =? term_id x); [congruence|exact IH].
Qed.

(** X17.  As long as every new session reads a clock value whose id names
    no session shown, whatever else the user does and whenever timers and
    service answers arrive, from the seeded component on: the ids of the
    sessions stay pairwise distinct and the active id stays one of them, so
    the collection is never empty, exactly one session is rendered active,
    and it is the one the terminal body shows. *)
Theorem active_session_always_shown (now1 now2 : Z) (es : list Event) (c : Sys) :
  run (bootAt now1 now2) es = Some c ->
  freshClicks (bootAt now1 now2) es ->
  NoDup (termIds (state (live c)))
  /\ In (activeTerminalId (state (live c))) (termIds (state (live c)))
  /\ 1 <= length (terminals (state (live c)))
  /\ exists t,
       activeSessions (state (live c)) = [t]
       /\ terminalById (activeTerminalId (state (live c))) (state (live c)) = Some t.
Proof.
  intros E Hfresh.
  assert (H : sessionsShown (live c)).
  { apply (run_sessions es (bootAt now1 now2) c); [|exact Hfresh|exact E].
    split; [|constructor]. split; unfold termIds; simpl; [|now left].
    repeat constructor; simpl; intros H;
      repeat (destruct H as [H|H]; [discriminate H|]); destruct H. }
  destruct H as [Hnd Hin]. split; [exact Hnd|]. split; [exact Hin|].
  unfold termIds in Hnd, Hin. split.
  - destruct (terminals (state (live c))); simpl in *; [contradiction|lia].
  - destruct (active_single _ _ Hnd Hin) as [t [Hf _]].
    exists t. split; [exact Hf|]. now apply find_of_single.
Qed.

Lemma active_session_always_shown_witness :
  exists c,
    run (bootAt 0 0) [ClickNewTerminal 5; ClickNewTerminal 6; ClickCloseTerminal "term-6";
                      CommandChange "npm deploy"; KeyDown Enter;
                      ClickCloseTerminal "term-1"; Wake 0 Timeout] = Some c
    /\ termIds (state (live c)) = ["term-2"; "term-5"]
    /\ exists t, activeSessions (state (live c)) = [t] /\ term_id t = "term-2".
Proof.
  destruct (run (bootAt 0 0) [ClickNewTerminal 5; ClickNewTerminal 6;
                              ClickCloseTerminal "term-6";
                              CommandChange "npm deploy"; KeyDown Enter;
                              ClickCloseTerminal "term-1"; Wake 0 Timeout]) as [c|] eqn:E;
    [|vm_compute in E; discriminate E].
  exists c. split; [reflexivity|].
  destruct (active_session_always_shown 0 0 _ c E) as [_ [_ [_ [t [Ht _]]]]].
  - vm_compute. repeat split;
      intros H; repeat (destruct H as [H|H]; [discriminate H|]); destruct H.
  - vm_compute in E. injection E as <-. split; [reflexivity|].
    exists t. split; [exact Ht|]. vm_compute in Ht. injection Ht as <-. reflexivity.
Defined.

(** ** Commands that start something *)



(** X19.  The audit button is disabled while the loading flag is raised,
    but the [audit] command is not: with a file selected that has text, and
    whatever the flag, a dispatch of [audit] echoes the prompt, raises the
    flag, logs the analysing line, resets the input buffer and the suggestion
    at once and leaves a call of the service pending. *)
Theorem audit_command_ignores_loading_flag
    (st : App) (cmd : string) (f : FileEntry) (code : string) :
  Js.toLowerCase (Js.trim cmd) = "audit" ->
  activeFile st = Some f -> content f = Some code -> code <> "" ->
  (isAiLoading st = true -> handler st ClickAnalyze = None)
  /\ (forall a,
        exists k,
          exec (handleCommand st cmd) a
          = Some (promptReset
                    (logged (activeTerminalId (state st))
                       ["AI: Analyzing " ++ file_name f ++ "..."]
                       (with_isAiLoading true
                          (logged (activeTerminalId (state st))
                             ["soluf-th@dev:~$ " ++ cmd] a))),
                  [OnAnalyze code (Js.or_else (language f) "text") k])).
Proof.
  intros H Hf Hc Hne. split.
  - intros Hl. unfold handler. rewrite Hl, Hf. reflexivity.
  - intros a. unfold handleCommand, handleCommand_with, handleAnalyze. rewrite H, Hf, Hc.
    destruct (Js.truthy code) eqn:E; [|apply truthy_false in E; contradiction].
    eexists. reflexivity.
Qed.

Lemma audit_command_ignores_loading_flag_witness :
  handler (with_isAiLoading true (initialApp 0)) ClickAnalyze = None
  /\ exists k code a',
       exec (handleCommand (with_isAiLoading true (initialApp 0)) "audit")
            (with_isAiLoading true (initialApp 0))
       = Some (a', [OnAnalyze code "solidity" k]).
Proof.
  destruct (audit_command_ignores_loading_flag (with_isAiLoading true (initialApp 0))
              "audit" _ _ eq_refl eq_refl eq_refl) as [Hbutton Hcmd]; [discriminate|].
  split; [apply Hbutton; reflexivity|].
  destruct (Hcmd (with_isAiLoading true (initialApp 0))) as [k Hk].
  exists k. eexists. eexists. exact Hk.
Defined.

(** ** Suggestions are commands *)

Lemma complaintsWithin_addLog (P : string -> string -> Prop) (st : App) (msg : string)
    (termId : option string) (a a' : App) :
  complaint msg = false ->
  complaintsWithin P a -> addLog st msg termId a = Some a' -> complaintsWithin P a'.
Proof.
  intros Hmsg Ha E. injection E as <-. intros t' l Ht' Hl Hc. simpl in Ht'.
  apply in_map_iff in Ht' as [t [<- Ht]].
  destruct (term_id t =? _); [|now apply (Ha t l)].
  simpl in Hl. apply in_app_or in Hl as [Hl|[<-|[]]].
  - now apply (Ha t l).
  - rewrite Hmsg in Hc. discriminate.
Qed.

Lemma complaintsWithin_clearActive (P : string -> string -> Prop) (a : App) :
  complaintsWithin P a -> complaintsWithin P (on_state clearActive a).
Proof.
  intros Ha t' l Ht' Hl Hc. simpl in Ht'.
  apply in_map_iff in Ht' as [t [<- Ht]].
  destruct (term_id t =? _); [destruct Hl|now apply (Ha t l)].
Qed.

Ltac keeps_complaints :=
  let a := fresh "a" in
  let a' := fresh "a'" in
  let HI := fresh "HI" in
  let E := fresh "E" in
  intros a a' HI E;
  first [ refine (complaintsWithin_addLog _ _ _ _ _ _ _ HI E); reflexivity
        | injection E as <-; first [exact HI | exact (complaintsWithin_clearActive _ _ HI)] ].

Ltac keeps_quiet :=
  repeat match goal with
  | |- Keeps _ Ret => apply Keeps_Ret
  | |- Keeps _ (Sleep _ _) => apply Keeps_Sleep
  | |- Keeps _ (Fork _ _) => apply Keeps_Fork
  | |- Keeps _ (AwaitAnalyze _ _ _) => apply Keeps_AwaitAnalyze; intros [?|]
  | |- Keeps _ (Update _ _) => apply Keeps_Update; [keeps_complaints|]
  | |- Keeps _ (if ?b then _ else _) => destruct b
  | |- Keeps _ (match ?x with _ => _ end) => destruct x
  end.

Lemma vocabulary_is_quiet (P : string -> string -> Prop) (st : App) (c : string) :
  In c COMMANDS -> Keeps (complaintsWithin P) (handleCommand st c).
Proof.
  unfold COMMANDS. simpl. intros H.
  repeat (destruct H as [<-|H]; [|]); try destruct H;
    unfold handleCommand, handleCommand_with; cbn -[addLog handleAnalyze runWorkflow];
    try (unfold handleAnalyze); try (unfold runWorkflow; cbn [steps forEachStep]);
    keeps_quiet.
Qed.

(** X20.  Every entry of the suggestion vocabulary is a command the
    interpreter accepts: dispatching one never adds a [Command not found]
    or [Unknown theme] line to any session, neither at once nor in what it
    leaves suspended.  Every such line found in a log after the dispatch was
    in the log of a session with the same id before it. *)
Theorem suggested_commands_are_accepted (st : App) (c : string) :
  In c COMMANDS ->
  (forall P, Keeps (complaintsWithin P) (handleCommand st c))
  /\ (forall a a' ps,
        exec (handleCommand st c) a = Some (a', ps) ->
        forall t' l,
          In t' (terminals (state a')) -> In l (term_logs t') -> complaint l = true ->
          exists t, In t (terminals (state a)) /\ term_id t = term_id t'
                    /\ In l (term_logs t)).
Proof.
  intros Hc. split; [intros P; now apply vocabulary_is_quiet|].
  intros a a' ps E.
  set (P := fun (id l : string) =>
              exists t, In t (terminals (state a)) /\ term_id t = id /\ In l (term_logs t)).
  assert (Ha : complaintsWithin P a).
  { intros t l Ht Hl _. exists t. auto. }
  destruct (exec_keeps _ _ (vocabulary_is_quiet P st c Hc) a a' ps Ha E) as [Ha' _].
  intros t' l Ht' Hl Hcomp. exact (Ha' t' l Ht' Hl Hcomp).
Qed.

Lemma suggested_commands_are_accepted_witness :
  exists a' ps,
    exec (handleCommand (initialApp 0) "theme cyberpunk") (initialApp 0) = Some (a', ps)
    /\ forall t' l,
         In t' (terminals (state a')) -> In l (term_logs t') -> complaint l = true ->
         exists t, In t (terminals (state (initialApp 0))) /\ term_id t = term_id t'
                   /\ In l (term_logs t).
Proof.
  destruct (exec (handleCommand (initialApp 0) "theme cyberpunk") (initialApp 0))
    as [[a' ps]|] eqn:E; [|vm_compute in E; discriminate E].
  exists a', ps. split; [reflexivity|].
  apply (proj2 (suggested_commands_are_accepted (initialApp 0) "theme cyberpunk"
                  ltac:(simpl; tauto)) (initialApp 0) a' ps E).
Defined.

(** ** The hidden terminal panel *)

Lemma exec_parked_keeps (I : App -> Prop) (p : Proc) :
  Keeps I p -> forall a a' ps, exec p a = Some (a', ps) -> Forall (KeepsParked I) ps.
Proof.
  induction 1 as [|u k Hu Hk IH|ms k Hk IH|code lang k Hk IH|message context k Hk IH
                  |child k Hc IHc Hk IHk]; simpl; intros a a' ps E.
  - injection E as _ <-. constructor.
  - destruct (u a) as [a1|]; [eauto|discriminate].
  - injection E as _ <-. constructor; [exact Hk|constructor].
  - injection E as _ <-. constructor; [exact Hk|constructor].
  - injection E as _ <-. constructor; [exact Hk|constructor].
  - destruct (exec child a) as [[a1 ps1]|] eqn:E1; [|discriminate].
    destruct (exec k a1) as [[a2 ps2]|] eqn:E2; [|discriminate].
    injection E as _ <-. apply Forall_app. eauto.
Qed.

Lemma panelQuiet_of_keeps (p : Proc) (a a' : App) (ps : list Parked) :
  (forall U, Keeps (panelIs U) p) -> exec p a = Some (a', ps) -> panelQuiet ps.
Proof.
  intros Hk E. unfold panelQuiet. apply Forall_forall. intros q Hq U.
  pose proof (exec_parked_keeps _ p (Hk U) a a' ps E) as Hps.
  rewrite Forall_forall in Hps. auto.
Qed.

Ltac keeps_panel_upd :=
  let a := fresh "a" in
  let a' := fresh "a'" in
  let HI := fresh "HI" in
  let E := fresh "E" in
  intros a a' HI E; unfold panelIs in *; rewrite <- HI; injection E as <-; reflexivity.

Ltac keeps_panel :=
  repeat match goal with
  | |- Keeps _ Ret => apply Keeps_Ret
  | |- Keeps _ (Sleep _ _) => apply Keeps_Sleep
  | |- Keeps _ (Fork _ _) => apply Keeps_Fork
  | |- Keeps _ (AwaitAnalyze _ _ _) => apply Keeps_AwaitAnalyze; intros [?|]
  | |- Keeps _ (AwaitChat _ _ _) => apply Keeps_AwaitChat; intros [?|]
  | |- Keeps _ (Update _ _) => apply Keeps_Update; [keeps_panel_upd|]
  | |- Keeps _ (if ?b then _ else _) => destruct b
  | |- Keeps _ (match ?x with _ => _ end) => destruct x
  end.

Lemma forEachStep_panel (U : bool) (st : App) (l : list string) (k : Proc) :
  Keeps (panelIs U) k -> Keeps (panelIs U) (forEachStep st l k).
Proof. intros Hk. induction l; simpl; keeps_panel; assumption. Qed.

Lemma runWorkflow_parked (st : App) (workflowId : string) (a a' : App) (ps : list Parked) :
  exec (runWorkflow st workflowId) a = Some (a', ps) -> panelQuiet ps.
Proof.
  unfold runWorkflow.
  destruct (find _ (workflows (state st))) as [wf|];
    [destruct (WorkflowStatus_eqb (status wf) running)|];
    simpl; intros E; injection E as _ <-; try constructor; [|constructor].
  intros U. simpl. keeps_panel.
Qed.

Lemma closeTerminal_panel (U : bool) (st : App) (id : string) :
  Keeps (panelIs U) (closeTerminal st id).
Proof.
  unfold closeTerminal. destruct (_ <=? 1)%nat; [apply Keeps_Ret|].
  apply Keeps_Update; [|apply Keeps_Ret].
  intros a a' HI E. unfold panelIs in *. rewrite <- HI. unfold setState_partial in E.
  destruct (activeTerminalId (state a) =? id);
    [destruct (filter _ _)|]; try discriminate; injection E as <-; reflexivity.
Qed.

(** The dispatcher apart from its [npm deploy] branch. *)
Lemma handleCommand_panel (U : bool) (st : App) (cmd : string) :
  (Js.toLowerCase (Js.trim cmd) =? "npm deploy") = false ->
  Keeps (panelIs U) (handleCommand st cmd).
Proof.
  intros Hnot. unfold handleCommand, handleCommand_with, handleAnalyze. cbv zeta. rewrite Hnot.
  keeps_panel.
Qed.

Lemma handleCommand_parked (st : App) (cmd : string) (a a' : App) (ps : list Parked) :
  exec (handleCommand st cmd) a = Some (a', ps) -> panelQuiet ps.
Proof.
  destruct (Js.toLowerCase (Js.trim cmd) =? "npm deploy") eqn:Hd.
  - apply String.eqb_eq in Hd. unfold handleCommand, handleCommand_with. rewrite Hd.
    cbn -[addLog runWorkflow]. rewrite addLog_active.
    destruct (exec (runWorkflow st "wf2") _) as [[a1 ps1]|] eqn:E1; [|discriminate].
    intros E. injection E as _ <-. rewrite app_nil_r.
    exact (runWorkflow_parked _ _ _ _ _ E1).
  - intros E. eapply panelQuiet_of_keeps; [|exact E].
    intros U. now apply handleCommand_panel.
Qed.

Lemma handler_parked (a a' : App) (e : Event) (p : Proc) (ps : list Parked) :
  handler a e = Some p -> exec p a = Some (a', ps) -> panelQuiet ps.
Proof.
  intros Hh Ex.
  assert (generic : (forall U, Keeps (panelIs U) p) -> panelQuiet ps).
  { intros Hk. exact (panelQuiet_of_keeps p a a' ps Hk Ex). }
  destruct e; simpl in Hh; unfold guard in Hh;
    repeat match type of Hh with
    | context [match findFile ?l ?i with _ => _ end] => destruct (findFile l i)
    | (if ?b then _ else _) = _ => destruct b
    end;
    try discriminate; injection Hh as <-.
  - clear generic. destruct key; simpl in Ex.
    + exact (handleCommand_parked _ _ _ _ _ Ex).
    + destruct (Js.truthy (suggestion a)); simpl in Ex; injection Ex as _ <-; constructor.
    + injection Ex as _ <-. constructor.
  - apply generic. intros U. unfold onCommandChange, onCommandChange_with. keeps_panel.
  - exact (runWorkflow_parked _ _ _ _ _ Ex).
  - apply generic. intros U. unfold addTask, addTask_with. keeps_panel.
  - apply generic. intros U. keeps_panel.
  - apply generic. intros U. unfold toggleTask. keeps_panel.
  - apply generic. intros U. unfold deleteTask. keeps_panel.
  - apply generic. intros U. unfold createNewTerminal. keeps_panel.
  - apply generic. intros U. apply closeTerminal_panel.
  - apply generic. intros U. keeps_panel.
  - apply generic. intros U. destruct (type _); keeps_panel.
  - apply generic. intros U. keeps_panel.
  - apply generic. intros U. keeps_panel.
  - apply generic. intros U. keeps_panel.
  - apply generic. intros U. keeps_panel.
  - apply generic. intros U. keeps_panel.
  - simpl in Ex. injection Ex as _ <-. constructor.
  - apply generic. intros U. unfold handleAnalyze. keeps_panel.
  - apply generic. intros U. unfold handleChat, handleChat_with. keeps_panel.
  - apply generic. intros U. keeps_panel.
Qed.

Lemma wake_panel (c c' : Sys) (i : nat) (w : Wakeup) :
  panelQuiet (parked c) -> step c (Wake i w) = Some c' ->
  isTerminalOpen (state (live c')) = isTerminalOpen (state (live c))
  /\ panelQuiet (parked c').
Proof.
  intros Hp E. unfold step in E.
  destruct (nth_error (parked c) i) as [q|] eqn:En; [|discriminate].
  destruct (resume q w) as [k|] eqn:Er; [|discriminate].
  destruct (exec k (live c)) as [[a ps]|] eqn:Ex; [|discriminate].
  injection E as <-.
  assert (Hk : forall U, Keeps (panelIs U) k).
  { intros U. apply nth_error_In in En. unfold panelQuiet in Hp.
    rewrite Forall_forall in Hp. specialize (Hp q En U).
    destruct q, w; simpl in Er; try discriminate; injection Er as <-;
      simpl in Hp; auto. }
  split; simpl.
  - exact (proj1 (exec_keeps _ k (Hk (isTerminalOpen (state (live c)))) _ _ _ eq_refl Ex)).
  - unfold panelQuiet. apply Forall_app. split.
    + now apply Forall_remove_nth.
    + exact (panelQuiet_of_keeps k _ _ _ Hk Ex).
Qed.

Lemma step_panelQuiet (c c' : Sys) (e : Event) :
  panelQuiet (parked c) -> step c e = Some c' -> panelQuiet (parked c').
Proof.
  intros Hp E. destruct e; try exact (proj2 (wake_panel _ _ _ _ Hp E));
    unfold step in E;
    match type of E with
    | context [handler (live c) ?e] =>
        destruct (handler (live c) e) as [p|] eqn:Hh; [|discriminate];
        destruct (exec p (live c)) as [[a ps]|] eqn:Ex; [|discriminate];
        injection E as <-; simpl; unfold panelQuiet; apply Forall_app;
        split; [exact Hp|exact (handler_parked _ _ _ _ _ Hh Ex)]
    end.
Qed.

Lemma run_panelQuiet (es : list Event) :
  forall c c', panelQuiet (parked c) -> run c es = Some c' -> panelQuiet (parked c').
Proof.
  induction es as [|e es IH]; simpl; intros c c' Hc E.
  - injection E as <-. assumption.
  - destruct (step c e) as [c1|] eqn:Es; [|discriminate].
    eapply IH; [|exact E]. eapply step_panelQuiet; eauto.
Qed.

Lemma hidden_stays_hidden (a a' : App) (e : Event) (p : Proc) (ps : list Parked) :
  isTerminalOpen (state a) = false ->
  handler a e = Some p -> exec p a = Some (a', ps) ->
  isTerminalOpen (state a') = true -> exists workflowId, e = ClickRunWorkflow workflowId.
Proof.
  intros Hhid Hh Ex Hopen.
  assert (generic : Keeps (panelIs false) p -> False).
  { intros Hk. pose proof (proj1 (exec_keeps _ p Hk a a' ps Hhid Ex)) as H.
    unfold panelIs in H. congruence. }
  destruct e; simpl in Hh; unfold guard in Hh; rewrite ?Hhid in Hh; simpl in Hh;
    try discriminate; try (now eexists);
    repeat match type of Hh with
    | context [match findFile ?l ?i with _ => _ end] => destruct (findFile l i)
    | (if ?b then _ else _) = _ => destruct b
    end;
    try discriminate; injection Hh as <-; exfalso; apply generic.
  - unfold addTask, addTask_with. keeps_panel.
  - keeps_panel.
  - unfold toggleTask. keeps_panel.
  - unfold deleteTask. keeps_panel.
  - destruct (type _); keeps_panel.
  - keeps_panel.
  - keeps_panel.
  - keeps_panel.
  - keeps_panel.
  - unfold handleAnalyze. keeps_panel.
  - unfold handleChat, handleChat_with. keeps_panel.
  - keeps_panel.
Qed.

(** X21.  Once the terminal panel is hidden, only a run of a workflow
    shows it again.  In every configuration the component reaches, if the
    panel is hidden and one turn of the event loop leaves it shown, that turn
    is a click on the run button of a workflow: no key, no command and no
    other click can act, the prompt being hidden with the panel, and no
    timer or service answer changes the visibility of the panel. *)
Theorem hidden_panel_reopens_only_by_workflow
    (now : Z) (es : list Event) (c c' : Sys) (e : Event) :
  run (boot now) es = Some c ->
  isTerminalOpen (state (live c)) = false ->
  step c e = Some c' ->
  isTerminalOpen (state (live c')) = true ->
  exists workflowId, e = ClickRunWorkflow workflowId.
Proof.
  intros Hrun Hhid Hstep Hopen.
  assert (Hq : panelQuiet (parked c)).
  { apply (run_panelQuiet es (boot now) c); [constructor|exact Hrun]. }
  destruct e;
    try (pose proof (proj1 (wake_panel _ _ _ _ Hq Hstep)) as Hsame; congruence);
    unfold step in Hstep;
    match type of Hstep with
    | context [handler (live c) ?e] =>
        destruct (handler (live c) e) as [p|] eqn:Hh; [|discriminate];
        destruct (exec p (live c)) as [[a ps]|] eqn:Ex; [|discriminate];
        injection Hstep as <-;
        exact (hidden_stays_hidden _ _ _ _ _ Hhid Hh Ex Hopen)
    end.
Qed.

Lemma hidden_panel_reopens_only_by_workflow_witness :
  exists c c',
    run (boot 0) [ClickSidebarTab actions; ClickHideTerminal] = Some c
    /\ isTerminalOpen (state (live c)) = false
    /\ step c (ClickRunWorkflow "wf2") = Some c'
    /\ isTerminalOpen (state (live c')) = true
    /\ exists workflowId, ClickRunWorkflow "wf2" = ClickRunWorkflow workflowId.
Proof.
  destruct (run (boot 0) [ClickSidebarTab actions; ClickHideTerminal]) as [c|] eqn:E;
    [|vm_compute in E; discriminate E].
  destruct (step c (ClickRunWorkflow "wf2")) as [c'|] eqn:E';
    [|vm_compute in E; injection E as <-; vm_compute in E'; discriminate E'].
  assert (Hhid : isTerminalOpen (state (live c)) = false).
  { vm_compute in E. injection E as <-. reflexivity. }
  assert (Hopen : isTerminalOpen (state (live c')) = true).
  { vm_compute in E. injection E as <-. vm_compute in E'. injection E' as <-.
    reflexivity. }
  exists c, c'. repeat (split; [assumption || reflexivity|]).
  exact (hidden_panel_reopens_only_by_workflow 0%Z _ c c' _ E Hhid E' Hopen).
Defined.
